(** * bilingual_book_maker: translator adapters

    A shallow embedding of
    - [book_maker/translator/claude_code_translator.py]
      (class [ClaudeCodeTranslator]) and
    - [book_maker/translator/deepseek_translator.py]
      (class [DeepSeekTranslator]),
    with the properties of the adapters' documentation stated and proved on
    the embedding.

    Conventions.
    - A Python [str] is a [string]; every character stands for the code
      point of the same number (0..255).
    - A Python value used in a boolean position is tested with the
      truthiness of its type ([None], [""], [[]] are falsy).
    - A call that may raise returns a [result]; a call with effects threads
      the process state ([World]) and, for methods, the receiver. *)

From Stdlib Require Import ZArith String Ascii List Bool.
From stdpp Require Import base tactics option list strings gmap.

Local Open Scope string_scope.
Local Open Scope list_scope.
Local Open Scope Z_scope.

(** ** Python prelude *)

Module Py.

(** An exception instance: its class, the classes it derives from, and
    its message. *)
Record exn : Type := Exn {
  exn_class : string;
  exn_bases : list string;
  exn_message : string
}.

Definition ImportError (msg : string) : exn := Exn "ImportError" ["Exception"] msg.
Definition ValueError (msg : string) : exn := Exn "ValueError" ["Exception"] msg.
Definition RuntimeError (msg : string) : exn := Exn "RuntimeError" ["Exception"] msg.
Definition NotImplementedError (msg : string) : exn :=
  Exn "NotImplementedError" ["RuntimeError"; "Exception"] msg.

(** [isinstance(e, cls)], which is what an [except cls:] clause tests. *)
Definition isinstance (e : exn) (cls : string) : bool :=
  String.eqb (exn_class e) cls || existsb (String.eqb cls) (exn_bases e).

Inductive result (A : Type) : Type :=
| Ok (a : A)
| Raise (e : exn).
Arguments Ok {A} a.
Arguments Raise {A} e.

Definition is_ok {A} (r : result A) : bool :=
  match r with Ok _ => true | Raise _ => false end.

(** Truthiness. *)
Definition truthy_str (s : string) : bool :=
  match s with EmptyString => false | String _ _ => true end.

Definition truthy_opt_str (o : option string) : bool :=
  match o with None => false | Some s => truthy_str s end.

Definition truthy_list {A} (l : list A) : bool :=
  match l with [] => false | _ :: _ => true end.

Definition truthy_opt_list {A} (o : option (list A)) : bool :=
  match o with None => false | Some l => truthy_list l end.

(** [x or d] for an optional string [x] and a string [d]. *)
Definition or_str (x : option string) (d : string) : string :=
  match x with
  | Some s => if truthy_str s then s else d
  | None => d
  end.

(** The line feed, written [\n] in the source. *)
Definition nl : string := String "010"%char EmptyString.

(** [str.isspace] on one character, for the code points below 256:
    TAB, LF, VT, FF, CR, FS, GS, RS, US, SPACE, NEL and NBSP. *)
Definition isspace (c : ascii) : bool :=
  let n := N_of_ascii c in
  ((9 <=? n) && (n <=? 13) || (28 <=? n) && (n <=? 32)
   || (n =? 133) || (n =? 160))%N.

Fixpoint lstrip (s : string) : string :=
  match s with
  | EmptyString => EmptyString
  | String c r => if isspace c then lstrip r else s
  end.

Fixpoint rstrip (s : string) : string :=
  match s with
  | EmptyString => EmptyString
  | String c r =>
      match rstrip r with
      | EmptyString => if isspace c then EmptyString else String c EmptyString
      | r' => String c r'
      end
  end.

(** [s.strip()] *)
Definition strip (s : string) : string := rstrip (lstrip s).

Fixpoint all_space (s : string) : bool :=
  match s with
  | EmptyString => true
  | String c r => isspace c && all_space r
  end.

(** [re.sub("\n{3,}", "\n\n", s)]: every maximal run of three or more
    line feeds becomes two line feeds. [run] counts the line feeds read
    since the last other character. *)
Definition emit_newlines (run : nat) : string :=
  match run with
  | O => ""
  | 1%nat => nl
  | _ => nl +:+ nl
  end.

Fixpoint squeeze_newlines_from (run : nat) (s : string) : string :=
  match s with
  | EmptyString => emit_newlines run
  | String c r =>
      if Ascii.eqb c "010"%char then squeeze_newlines_from (S run) r
      else emit_newlines run +:+ String c (squeeze_newlines_from O r)
  end.

Definition squeeze_newlines (s : string) : string := squeeze_newlines_from O s.

(** [itertools.cycle(items)]: the saved items and the index of the next
    one to yield. *)
Record cycle (A : Type) : Type := Cycle {
  cycle_items : list A;
  cycle_pos : nat
}.
Arguments Cycle {A} _ _.
Arguments cycle_items {A} _.
Arguments cycle_pos {A} _.

Definition cycle_of {A} (l : list A) : cycle A := Cycle l 0.

(** [next(c)]: [None] stands for [StopIteration] (an empty cycle). *)
Definition cycle_next {A} (c : cycle A) : option A * cycle A :=
  match cycle_items c !! cycle_pos c with
  | Some x =>
      (Some x, Cycle (cycle_items c)
                     (if decide (S (cycle_pos c) < length (cycle_items c))%nat
                      then S (cycle_pos c) else 0%nat))
  | None => (None, c)
  end.

Fixpoint cycle_take {A} (n : nat) (c : cycle A) : list A :=
  match n with
  | O => []
  | S n' =>
      match cycle_next c with
      | (Some x, c') => x :: cycle_take n' c'
      | (None, _) => []
      end
  end.

End Py.

Import Py.

(** ** The agentic adapter: [ClaudeCodeTranslator] *)

Module ClaudeCode.

(** A value of the SDK option mapping ([max_turns], [allowed_tools],
    [permission_mode], [model], ...). *)
Inductive opt_value : Type :=
| OInt (n : Z)
| OStr (s : string)
| OList (l : list string).

(** A block of a streamed message; [block_text] is its [text] attribute when
    it has one ([hasattr(block, 'text')]). *)
Record Block : Type := { block_text : option string }.

(** A streamed message; [message_content] is its [content] attribute when it
    has one ([hasattr(message, 'content')]). *)
Record Message : Type := { message_content : option (list Block) }.

(** What lies outside [claude_code_translator.py]: the types of
    - the state of everything the process talks to (services, network);
    - the instances of the plain adapter [claude_translator.Claude]
      (plain objects, hence truthy);
    - the extra keyword arguments passed on to it;
    - Python floats (the temperature is only stored and passed on);
    - the instances of the SDK's option class. *)
Class Outside : Type := {
  Ext : Type;
  Claude : Type;
  Kwargs : Type;
  float : Type;
  Options : Type
}.

(** The process state: what [rich.print] has written so far, [os.environ],
    the prompts handed to the SDK's [query] (oldest first), and the outside
    world. *)
Record World `{Outside} : Type := {
  console : list string;
  environ : gmap string string;
  sdk_prompts : list string;
  ext : Ext
}.

(** The arguments [ClaudeCodeTranslator.__init__] passes to [Claude]. *)
Record ClaudeArgs `{Outside} : Type := {
  c_key : string;
  c_language : string;
  c_api_base : option string;
  c_prompt_template : option string;
  c_prompt_sys_msg : option string;
  c_temperature : float;
  c_context_flag : bool;
  c_context_paragraph_limit : Z;
  c_kwargs : Kwargs
}.

(** The operations the module imports:
    - whether [import claude_code_sdk] succeeded;
    - the constructor of [Claude], its [translate], and its
      [translate_list] when the class has one;
    - the SDK's option class, called with the option mapping as keyword
      arguments;
    - the SDK's streaming [query(prompt, options)], which reads the
      environment and either yields all its messages or raises;
    - [template.format(text=..., language=...)];
    - the rendering of console markup by [rich], which [rich.print] does
      before it writes anything and which raises [MarkupError] on a tag it
      cannot match (a closing tag with no open tag, for one). *)
Class Services `{Outside} : Type := {
  HAS_CLAUDE_CODE_SDK : bool;
  Claude_init : ClaudeArgs -> World -> result Claude * World;
  Claude_translate : Claude -> string -> World -> result string * Claude * World;
  Claude_translate_list :
    option (Claude -> list string -> World -> result (list string) * Claude * World);
  ClaudeCodeOptions : gmap string opt_value -> result Options;
  query : string -> Options -> gmap string string -> Ext -> result (list Message) * Ext;
  str_format : string -> string -> string -> result string;
  render_markup : string -> result unit
}.

Section Adapter.

Context `{Services}.

(** The process state once [s] has been written on the console. *)
Definition written (s : string) (w : World) : World :=
  {| console := console w ++ [s]; environ := environ w;
     sdk_prompts := sdk_prompts w; ext := ext w |}.

(** [print(s)], which is [rich.print]: the markup of [s] is rendered, which
    may raise, and [s] is then written on the console. *)
Definition print (s : string) (w : World) : result unit * World :=
  match render_markup s with
  | Ok _ => (Ok tt, written s w)
  | Raise e => (Raise e, w)
  end.

(** The arguments of [ClaudeCodeTranslator.__init__]. *)
Record InitArgs : Type := {
  arg_key : option string;
  arg_language : string;
  arg_api_base : option string;
  arg_prompt_template : option string;
  arg_prompt_sys_msg : option string;
  arg_temperature : float;
  arg_context_flag : bool;
  arg_context_paragraph_limit : Z;
  arg_agentic : bool;
  arg_agentic_options : option (gmap string opt_value);
  arg_kwargs : Kwargs
}.

(** Modelled from the spec: the constructor of the adapter base class
    [Base] ([base_translator.py], not among the sources). The specification
    has every adapter constructed from its credential(s) and its target
    language, both held by the instance: the constructor keeps the two and
    does nothing else. *)
Definition Base_init (key language : string) : string * string := (key, language).

(** The attributes of an instance. [base_attrs] is what [Base.__init__]
    has set. *)
Record ClaudeCodeTranslator : Type := {
  base_attrs : string * string;
  language : string;
  api_key : option string;
  api_base : option string;
  agentic : bool;
  agentic_options : gmap string opt_value;
  _fallback : option Claude;
  prompt_template : string;
  prompt_sys_msg : string;
  temperature : float;
  context_flag : bool;
  context_list : list string;
  context_translated_list : list string;
  context_paragraph_limit : Z;
  default_agentic_options : gmap string opt_value;
  sdk_options : gmap string opt_value
}.

(** The instance with its two context lists replaced. *)
Definition set_context (self : ClaudeCodeTranslator) (cl tl : list string)
  : ClaudeCodeTranslator :=
  {| base_attrs := base_attrs self; language := language self;
     api_key := api_key self; api_base := api_base self;
     agentic := agentic self; agentic_options := agentic_options self;
     _fallback := _fallback self; prompt_template := prompt_template self;
     prompt_sys_msg := prompt_sys_msg self; temperature := temperature self;
     context_flag := context_flag self;
     context_list := cl; context_translated_list := tl;
     context_paragraph_limit := context_paragraph_limit self;
     default_agentic_options := default_agentic_options self;
     sdk_options := sdk_options self |}.

(** The instance once the object [_fallback] refers to has reached the
    state [fb]. *)
Definition set_fallback (self : ClaudeCodeTranslator) (fb : Claude)
  : ClaudeCodeTranslator :=
  {| base_attrs := base_attrs self; language := language self;
     api_key := api_key self; api_base := api_base self;
     agentic := agentic self; agentic_options := agentic_options self;
     _fallback := Some fb; prompt_template := prompt_template self;
     prompt_sys_msg := prompt_sys_msg self; temperature := temperature self;
     context_flag := context_flag self;
     context_list := context_list self;
     context_translated_list := context_translated_list self;
     context_paragraph_limit := context_paragraph_limit self;
     default_agentic_options := default_agentic_options self;
     sdk_options := sdk_options self |}.

Definition import_error_message : string :=
  "Claude Code SDK is not installed. Please install it with:" +:+ nl +:+
  "pip install bbook-maker[agentic] or pip install claude-code-sdk".

Definition credential_error_message : string :=
  "API key is required for regular Claude mode. " +:+
  "Use --claude_key or set BBM_CLAUDE_API_KEY environment variable.".

Definition default_prompt_template : string :=
  "Translate the following text into {language}. Provide ONLY the translation without any additional text or explanation:"
  +:+ nl +:+ nl +:+ "{text}".

Definition default_prompt_sys_msg : string :=
  "You are a professional translator. Always provide only the translation without any additional commentary or explanations.".

Definition the_default_agentic_options : gmap string opt_value :=
  <["max_turns" := OInt 1]>
    (<["allowed_tools" := OList ["Read"]]>
       (<["permission_mode" := OStr "default"]> empty)).

(** [{**defaults, **user}] followed by the default for ['model']. *)
Definition merge_sdk_options (user : gmap string opt_value) : gmap string opt_value :=
  let merged := union user the_default_agentic_options in
  match merged !! "model" with
  | Some _ => merged
  | None => <["model" := OStr "glm-4.5"]> merged
  end.

(** The arguments of the call [Claude(key=key, ...)]. *)
Definition fallback_args (a : InitArgs) (key : string) : ClaudeArgs :=
  {| c_key := key; c_language := arg_language a;
     c_api_base := arg_api_base a;
     c_prompt_template := arg_prompt_template a;
     c_prompt_sys_msg := arg_prompt_sys_msg a;
     c_temperature := arg_temperature a;
     c_context_flag := arg_context_flag a;
     c_context_paragraph_limit := arg_context_paragraph_limit a;
     c_kwargs := arg_kwargs a |}.

(** [ClaudeCodeTranslator.__init__] *)
Definition __init__ (a : InitArgs) (w : World) : result ClaudeCodeTranslator * World :=
  let base := Base_init (or_str (arg_key a) "not-needed") (arg_language a) in
  let opts := default empty (arg_agentic_options a) in
  if arg_agentic a && negb HAS_CLAUDE_CODE_SDK then
    (Raise (ImportError import_error_message), w)
  else
    let finish (fb : option Claude) : ClaudeCodeTranslator :=
      {| base_attrs := base; language := arg_language a;
         api_key := arg_key a; api_base := arg_api_base a;
         agentic := arg_agentic a; agentic_options := opts;
         _fallback := fb;
         prompt_template := or_str (arg_prompt_template a) default_prompt_template;
         prompt_sys_msg := or_str (arg_prompt_sys_msg a) default_prompt_sys_msg;
         temperature := arg_temperature a;
         context_flag := arg_context_flag a;
         context_list := []; context_translated_list := [];
         context_paragraph_limit := arg_context_paragraph_limit a;
         default_agentic_options := the_default_agentic_options;
         sdk_options := merge_sdk_options opts |} in
    if negb (arg_agentic a) || negb HAS_CLAUDE_CODE_SDK then
      match arg_key a with
      | Some key =>
          if truthy_str key then
            match Claude_init (fallback_args a key) w with
            | (Ok fb, w') => (Ok (finish (Some fb)), w')
            | (Raise e, w') => (Raise e, w')
            end
          else (Raise (ValueError credential_error_message), w)
      | None => (Raise (ValueError credential_error_message), w)
      end
    else (Ok (finish None), w).

(** [rotate_key]: [pass]. *)
Definition rotate_key (self : ClaudeCodeTranslator) : ClaudeCodeTranslator := self.

Definition context_header : string := "Previous context:" +:+ nl.

Definition context_block (p : string * string) : string :=
  "Original: " +:+ p.1 +:+ nl +:+ "Translation: " +:+ p.2 +:+ nl +:+ nl.

(** [create_context_messages] *)
Definition create_context_messages (self : ClaudeCodeTranslator) : string :=
  if negb (context_flag self) || negb (truthy_list (context_list self)) then ""
  else
    fold_left (fun context p => context +:+ context_block p)
              (zip (context_list self) (context_translated_list self))
              context_header.

(** [save_context]; [pop(0)] drops the first element. *)
Definition save_context (self : ClaudeCodeTranslator) (text t_text : string)
  : ClaudeCodeTranslator :=
  if negb (context_flag self) then self
  else
    let cl := context_list self ++ [text] in
    let tl := context_translated_list self ++ [t_text] in
    if context_paragraph_limit self <? Z.of_nat (length cl)
    then set_context self (drop 1 cl) (drop 1 tl)
    else set_context self cl tl.

(** A sequence of [save_context] calls, one per pair, first pair first. *)
Definition save_context_all (self : ClaudeCodeTranslator)
    (calls : list (string * string)) : ClaudeCodeTranslator :=
  fold_left (fun s p => save_context s p.1 p.2) calls self.

(** A buffer as [__init__] leaves it: both lists empty. *)
Definition fresh (self : ClaudeCodeTranslator) : Prop :=
  context_list self = [] /\ context_translated_list self = [].

(** The last [cap] pairs of a history, oldest first (all of them when the
    history is shorter). *)
Definition retained (cap : Z) (history : list (string * string))
  : list (string * string) :=
  drop (length history - Z.to_nat cap) history.

(** The concatenation of a list of strings, in list order. *)
Definition join (l : list string) : string := fold_right String.append "" l.

(** *** The sync/async bridge *)

(** A coroutine object: the effect of awaiting it to completion. *)
Definition Coro (A : Type) : Type := World -> result A * World.

Definition no_running_loop_message : string := "no running event loop".

Definition asyncio_run_message : string :=
  "asyncio.run() cannot be called from a running event loop".

(** [asyncio.get_running_loop()] in a thread where an event loop is running
    ([in_loop = true]) or not. *)
Definition get_running_loop (in_loop : bool) : result unit :=
  if in_loop then Ok tt else Raise (RuntimeError no_running_loop_message).

(** [asyncio.run(coro)] called in a thread where an event loop is running
    ([in_loop = true]) or not: it refuses to start in the first case, and
    drives the coroutine to completion on a new loop in the second. *)
Definition asyncio_run {A} (in_loop : bool) (coro : Coro A) : Coro A :=
  fun w =>
    if in_loop then (Raise (RuntimeError asyncio_run_message), w)
    else coro w.

(** [pool.submit(asyncio.run, coro)] then [future.result()], the pool being
    shut down on leaving the [with] block: [asyncio.run(coro)] is executed
    in a worker thread, which has no running loop, the caller blocks until
    it is done, and gets its value or its exception. *)
Definition run_in_worker_thread {A} (coro : Coro A) : Coro A :=
  asyncio_run false coro.

(** [_sync_wrapper]: the [try] block, then the [except RuntimeError]
    clause, which sees every exception leaving the block. *)
Definition _sync_wrapper {A} (in_loop : bool) (coro : Coro A) : Coro A :=
  fun w =>
    let tried :=
      match get_running_loop in_loop with
      | Ok _ => run_in_worker_thread coro w
      | Raise e => (Raise e, w)
      end in
    match tried with
    | (Ok v, w') => (Ok v, w')
    | (Raise e, w') =>
        if isinstance e "RuntimeError" then asyncio_run in_loop coro w'
        else (Raise e, w')
    end.

(** *** Agentic translation *)

Definition default_base_url : string := "https://open.bigmodel.cn/api/anthropic".
Definition default_model : string := "glm-4.5".

(** [if not os.getenv(name): os.environ[name] = value] *)
Definition setenv_if_not (name value : string) (env : gmap string string)
  : gmap string string :=
  if negb (truthy_opt_str (env !! name)) then <[name := value]> env else env.

(** The two assignments guarded by [os.getenv] in [_agentic_translate]. *)
Definition configure_environment (env : gmap string string) : gmap string string :=
  setenv_if_not "ANTHROPIC_MODEL" default_model
    (setenv_if_not "ANTHROPIC_BASE_URL" default_base_url env).

(** The text of one streamed message: the [text] of its blocks that have
    one, in order. *)
Definition message_text (m : Message) : string :=
  match message_content m with
  | Some blocks =>
      fold_left (fun acc b =>
                   match block_text b with
                   | Some t => acc +:+ t
                   | None => acc
                   end) blocks ""
  | None => ""
  end.

Definition response_text (messages : list Message) : string :=
  fold_left (fun acc m => acc +:+ message_text m) messages "".

(** The prefix of the prompt: the system message and the context. *)
Definition prompt_prefix (self : ClaudeCodeTranslator) : string :=
  let context := create_context_messages self in
  let full_prompt :=
    if truthy_str (prompt_sys_msg self)
    then "System: " +:+ prompt_sys_msg self +:+ nl +:+ nl
    else "" in
  if truthy_str context then full_prompt +:+ context +:+ nl else full_prompt.

(** [_agentic_translate(text)], as a coroutine. *)
Definition _agentic_translate (self : ClaudeCodeTranslator) (text : string)
  : Coro string :=
  fun w =>
    match str_format (prompt_template self) text (language self) with
    | Raise e => (Raise e, w)
    | Ok body =>
        let full_prompt := prompt_prefix self +:+ body in
        match ClaudeCodeOptions (sdk_options self) with
        | Raise e => (Raise e, w)
        | Ok options =>
            let env := configure_environment (environ w) in
            let '(r, x) := query full_prompt options env (ext w) in
            let w' := {| console := console w; environ := env;
                         sdk_prompts := sdk_prompts w ++ [full_prompt];
                         ext := x |} in
            match r with
            | Ok messages => (Ok (strip (response_text messages)), w')
            | Raise e => (Raise e, w')
            end
        end
    end.

(** The argument of the second [print] of [translate]. *)
Definition colored (t_text : string) : string :=
  "[bold green]" +:+ squeeze_newlines t_text +:+ "[/bold green]".

(** [translate(text)], called from a thread where an event loop is running
    ([in_loop = true]) or not. *)
Definition translate (in_loop : bool) (self : ClaudeCodeTranslator) (text : string)
    (w : World) : result string * ClaudeCodeTranslator * World :=
  match print text w with
  | (Raise e, w) => (Raise e, self, w)
  | (Ok _, w) =>
      let self := rotate_key self in
      match _fallback self with
      | Some fb =>
          let '(r, fb', w') := Claude_translate fb text w in
          (r, set_fallback self fb', w')
      | None =>
          match _sync_wrapper in_loop (_agentic_translate self text) w with
          | (Ok t_text, w') =>
              let self' :=
                if context_flag self then save_context self text t_text
                else self in
              match print (colored t_text) w' with
              | (Ok _, w'') => (Ok t_text, self', w'')
              | (Raise e, w'') => (Raise e, self', w'')
              end
          | (Raise e, w') => (Raise e, self, w')
          end
      end
  end.

(** The loop of [translate_list]; [translated_list] is the list built so
    far. *)
Fixpoint translate_list_loop (in_loop : bool) (self : ClaudeCodeTranslator)
    (text_list translated_list : list string) (w : World)
  : result (list string) * ClaudeCodeTranslator * World :=
  match text_list with
  | [] => (Ok translated_list, self, w)
  | text :: rest =>
      if truthy_str (strip text) then
        match translate in_loop self text w with
        | (Ok t, self', w') =>
            translate_list_loop in_loop self' rest (translated_list ++ [t]) w'
        | (Raise e, self', w') => (Raise e, self', w')
        end
      else translate_list_loop in_loop self rest (translated_list ++ [""]) w
  end.

(** [translate_list(text_list)] *)
Definition translate_list (in_loop : bool) (self : ClaudeCodeTranslator)
    (text_list : list string) (w : World)
  : result (list string) * ClaudeCodeTranslator * World :=
  match _fallback self, Claude_translate_list with
  | Some fb, Some fallback_translate_list =>
      let '(r, fb', w') := fallback_translate_list fb text_list w in
      (r, set_fallback self fb', w')
  | _, _ => translate_list_loop in_loop self text_list [] w
  end.

(** An entry that is empty or made of whitespace only. *)
Definition blank (text : string) : Prop := all_space text = true.

(** What the documentation asks of [translate_list] on an input list, as a
    relation between the state before, the input, the output and the state
    after: the output follows the input entry by entry; a blank entry gives
    [""] and leaves the state alone; any other entry gives what
    [translate] returns for it at that point. *)
Inductive translates (in_loop : bool)
  : ClaudeCodeTranslator -> World -> list string -> list string ->
    ClaudeCodeTranslator -> World -> Prop :=
| translates_nil self w :
    translates in_loop self w [] [] self w
| translates_blank self w text rest out self' w' :
    blank text ->
    translates in_loop self w rest out self' w' ->
    translates in_loop self w (text :: rest) ("" :: out) self' w'
| translates_entry self w text t self1 w1 rest out self' w' :
    ~ blank text ->
    translate in_loop self text w = (Ok t, self1, w1) ->
    translates in_loop self1 w1 rest out self' w' ->
    translates in_loop self w (text :: rest) (t :: out) self' w'.

(** The entries of a list that are not blank. *)
Definition non_blank (text_list : list string) : list string :=
  filter (fun text => negb (all_space text)) text_list.

End Adapter.

End ClaudeCode.

(** ** The DeepSeek adapter: [DeepSeekTranslator] *)

Module DeepSeek.

(** What lies outside [deepseek_translator.py]: the types of the process
    state, of the attributes the parent class [ChatGPTAPI] keeps on an
    instance, of the extra keyword arguments, and of Python floats. *)
Class Outside : Type := {
  World : Type;
  Attrs : Type;
  Kwargs : Type;
  float : Type
}.

(** The arguments of the call [super().__init__(...)]. *)
Record ParentArgs `{Outside} : Type := {
  p_key : string;
  p_language : string;
  p_api_base : string;
  p_prompt_template : option string;
  p_prompt_sys_msg : option string;
  p_temperature : float;
  p_context_flag : bool;
  p_context_paragraph_limit : Z;
  p_kwargs : Kwargs
}.

(** The arguments of [DeepSeekTranslator.__init__]. *)
Record InitArgs `{Outside} : Type := {
  arg_key : string;
  arg_language : string;
  arg_api_base : option string;
  arg_prompt_template : option string;
  arg_prompt_sys_msg : option string;
  arg_temperature : float;
  arg_context_flag : bool;
  arg_context_paragraph_limit : Z;
  arg_kwargs : Kwargs
}.

(** An instance: the attribute [model_list] and the attributes of the
    parent class. *)
Record DeepSeekTranslator `{Outside} : Type := {
  attrs : Attrs;
  model_list : cycle string
}.

(** The methods of [ChatGPTAPI] the class calls through [super()]. *)
Class ChatGPTAPI `{Outside} : Type := {
  ChatGPTAPI_init : ParentArgs -> World -> result Attrs * World;
  ChatGPTAPI_set_model_list :
    list string -> DeepSeekTranslator -> World -> result unit * DeepSeekTranslator * World
}.

Section Adapter.

Context `{ChatGPTAPI}.

Definition DEFAULT_API_BASE : string := "https://api.deepseek.com".
Definition DEFAULT_MODEL_LIST : list string := ["deepseek-chat"].

(** The arguments [__init__] hands to [super().__init__], after
    [api_base = api_base or self.DEFAULT_API_BASE]. *)
Definition parent_args (a : InitArgs) : ParentArgs :=
  let api_base := or_str (arg_api_base a) DEFAULT_API_BASE in
  {| p_key := arg_key a; p_language := arg_language a;
     p_api_base := api_base;
     p_prompt_template := arg_prompt_template a;
     p_prompt_sys_msg := arg_prompt_sys_msg a;
     p_temperature := arg_temperature a;
     p_context_flag := arg_context_flag a;
     p_context_paragraph_limit := arg_context_paragraph_limit a;
     p_kwargs := arg_kwargs a |}.

(** [DeepSeekTranslator.__init__] *)
Definition __init__ (a : InitArgs) (w : World) : result DeepSeekTranslator * World :=
  match ChatGPTAPI_init (parent_args a) w with
  | (Ok parent, w') =>
      (Ok {| attrs := parent; model_list := cycle_of DEFAULT_MODEL_LIST |}, w')
  | (Raise e, w') => (Raise e, w')
  end.

(** [DeepSeekTranslator.set_model_list]; the argument is [None] or a
    list. *)
Definition set_model_list (model_list : option (list string))
    (self : DeepSeekTranslator) (w : World)
  : result unit * DeepSeekTranslator * World :=
  let model_list :=
    match model_list with
    | Some l => if truthy_list l then l else DEFAULT_MODEL_LIST
    | None => DEFAULT_MODEL_LIST
    end in
  ChatGPTAPI_set_model_list model_list self w.

(** Modelled from the spec: [ChatGPTAPI.set_model_list]
    ([chatgptapi_translator.py], not among the sources). The specification
    gives the OpenAI-compatible adapter "a cyclable list of model
    identifiers (round-robin across calls, or fixed if only one)", which a
    custom model list overrides: when the call returns, the models the
    instance cycles over are the models of the list it was given. *)
Definition installs_cycle : Prop :=
  forall (l : list string) (self : DeepSeekTranslator) (w : World) self' w',
    ChatGPTAPI_set_model_list l self w = (Ok tt, self', w') ->
    forall model, model ∈ cycle_items (model_list self') <-> model ∈ l.

End Adapter.

End DeepSeek.

(** ** Model selection: [set_claude_model] *)

Module ModelChoice.
Import ClaudeCode.

(** A dict literal [{k1: v1, k2: v2, ...}]: the entries are stored in the
    order written, a later entry replacing an earlier one with the same
    key. *)
Definition dict_literal {V} (entries : list (string * V)) : gmap string V :=
  fold_left (fun d kv => <[kv.1 := kv.2]> d) entries empty.

(** The table [model_mapping] of [set_claude_model]. *)
Definition model_mapping : gmap string string :=
  dict_literal
    [ ("claude-code-sonnet", "claude-3-5-sonnet-20241022");
      ("claude-code-opus", "claude-opus-4-20250514");
      ("claude-code", "claude-3-5-sonnet-20241022");
      ("glm-4.5", "glm-4.5");
      ("glm", "glm-4.5") ].

(** [model_mapping.get(model_name, model_name)] *)
Definition sdk_model (model_name : string) : string :=
  default model_name (model_mapping !! model_name).

(** [set_claude_model] of the plain adapter [Claude], when the class has
    one ([hasattr(self._fallback, 'set_claude_model')]). *)
Class FallbackModel `{Outside} : Type := {
  Claude_set_claude_model :
    option (Claude -> string -> World -> result unit * Claude * World)
}.

Section SetModel.

Context `{Services} `{!FallbackModel}.

(** The instance with its option mapping replaced. *)
Definition set_sdk_options (self : ClaudeCodeTranslator)
    (options : gmap string opt_value) : ClaudeCodeTranslator :=
  {| base_attrs := base_attrs self; language := language self;
     api_key := api_key self; api_base := api_base self;
     agentic := agentic self; agentic_options := agentic_options self;
     _fallback := _fallback self; prompt_template := prompt_template self;
     prompt_sys_msg := prompt_sys_msg self; temperature := temperature self;
     context_flag := context_flag self;
     context_list := context_list self;
     context_translated_list := context_translated_list self;
     context_paragraph_limit := context_paragraph_limit self;
     default_agentic_options := default_agentic_options self;
     sdk_options := options |}.

(** [set_claude_model(model_name)] *)
Definition set_claude_model (self : ClaudeCodeTranslator) (model_name : string)
    (w : World) : result unit * ClaudeCodeTranslator * World :=
  match _fallback self, Claude_set_claude_model with
  | Some fb, Some fallback_set_claude_model =>
      let '(r, fb', w') := fallback_set_claude_model fb model_name w in
      (r, set_fallback self fb', w')
  | _, _ =>
      (Ok tt,
       set_sdk_options self
         (<["model" := OStr (sdk_model model_name)]> (sdk_options self)),
       w)
  end.

End SetModel.

End ModelChoice.

(** ** The registry: [MODEL_DICT] of [translator/__init__.py] *)

Module Registry.

(** The adapter classes the registry names. *)
Inductive adapter : Type :=
| Caiyun | ChatGPTAPI | DeepL | DeepLFree | Google | Claude
| DeepSeekTranslator | Gemini | GroqClient | TencentTranSmart | CustomAPI
| XAIClient | QwenTranslator | ClaudeCodeTranslator.

#[global] Instance adapter_eq_dec : EqDecision adapter.
Proof. solve_decision. Defined.

(** The entries of the literal, in the order written. *)
Definition MODEL_DICT_entries : list (string * adapter) :=
  [ ("openai", ChatGPTAPI);
    ("chatgptapi", ChatGPTAPI);
    ("gpt4", ChatGPTAPI);
    ("gpt4omini", ChatGPTAPI);
    ("gpt4o", ChatGPTAPI);
    ("o1preview", ChatGPTAPI);
    ("o1", ChatGPTAPI);
    ("o1mini", ChatGPTAPI);
    ("o3mini", ChatGPTAPI);
    ("google", Google);
    ("caiyun", Caiyun);
    ("deepl", DeepL);
    ("deeplfree", DeepLFree);
    ("claude", Claude);
    ("claude-3-5-sonnet-latest", Claude);
    ("claude-3-5-sonnet-20241022", Claude);
    ("claude-3-5-sonnet-20240620", Claude);
    ("claude-3-5-haiku-latest", Claude);
    ("claude-3-5-haiku-20241022", Claude);
    ("gemini", Gemini);
    ("geminipro", Gemini);
    ("groq", GroqClient);
    ("tencentransmart", TencentTranSmart);
    ("customapi", CustomAPI);
    ("xai", XAIClient);
    ("qwen", QwenTranslator);
    ("qwen-mt-turbo", QwenTranslator);
    ("qwen-mt-plus", QwenTranslator);
    ("claude-code", ClaudeCodeTranslator);
    ("claude-code-sonnet", ClaudeCodeTranslator);
    ("claude-code-opus", ClaudeCodeTranslator);
    ("glm-4.5", ClaudeCodeTranslator);
    ("glm", ClaudeCodeTranslator);
    ("deepseek", DeepSeekTranslator);
    ("deepseek-chat", DeepSeekTranslator);
    ("deepseek-reasoner", DeepSeekTranslator) ].

Definition MODEL_DICT : gmap string adapter :=
  ModelChoice.dict_literal MODEL_DICT_entries.

(** The names the registry sends to a given adapter class. *)
Definition names_of (cls : adapter) : gset string :=
  dom (filter (fun kv => kv.2 = cls) MODEL_DICT).

End Registry.

(** ** Observations on a run *)

Module Observe.
Import ClaudeCode.

(** The [text] attributes a stream of messages carries, in order. *)
Definition message_texts (messages : list Message) : list string :=
  m ← messages;
  match message_content m with
  | Some blocks => omap block_text blocks
  | None => []
  end.

(** The pairs a run of [translate_list] over [text_list] with outputs
    [out] hands to [save_context]: one per entry that is not blank. *)
Definition recorded (text_list out : list string) : list (string * string) :=
  filter (fun p => negb (all_space p.1)) (zip text_list out).

(** No three line feeds in a row in [s], [run] line feeds having just been
    read. *)
Fixpoint short_newline_runs (run : nat) (s : string) : bool :=
  match s with
  | EmptyString => true
  | String c r =>
      if Ascii.eqb c "010"%char
      then (run <? 2)%nat && short_newline_runs (S run) r
      else short_newline_runs O r
  end.

(** The first and the last character of a string. *)
Definition first_char (s : string) : option ascii :=
  match s with
  | EmptyString => None
  | String c _ => Some c
  end.

Fixpoint last_char (s : string) : option ascii :=
  match s with
  | EmptyString => None
  | String c EmptyString => Some c
  | String _ r => last_char r
  end.

(** A string that neither starts nor ends with whitespace. *)
Definition trimmed (s : string) : Prop :=
  (forall c, first_char s = Some c -> isspace c = false)
  /\ (forall c, last_char s = Some c -> isspace c = false).

End Observe.

(** ** Test doubles

    Stand-ins for what the two modules import, used to run the adapters on
    concrete inputs. *)

Module Doubles.
Import ClaudeCode.

(** The outside world counts the SDK queries served; a fallback instance
    records the texts it was asked to translate. *)
Definition outside : Outside :=
  {| Ext := nat; Claude := list string; Kwargs := unit; float := string;
     Options := gmap string opt_value |}.

Definition text_message (t : string) : Message :=
  {| message_content := Some [ {| block_text := Some t |} ] |}.

(** Whether the first tag of [s] is a closing tag. *)
Fixpoint closes_first (s : string) : bool :=
  match s with
  | EmptyString => false
  | String c r =>
      if Ascii.eqb c "["%char then
        match r with
        | String d _ => Ascii.eqb d "/"%char
        | EmptyString => false
        end
      else closes_first r
  end.

Definition markup_error : exn :=
  Exn "MarkupError" ["Exception"] "closing tag does not match any open tag".

(** The markup is refused when it starts with a closing tag. *)
Definition markup (s : string) : result unit :=
  if closes_first s then Raise markup_error else Ok tt.

(** The fallback answers [<text>]; the SDK answers the prompt it was sent,
    padded with blanks; the template is filled as [language: text]; the
    markup is rendered by [markup]. *)
Definition services (has_sdk : bool) : @Services outside :=
  {| HAS_CLAUDE_CODE_SDK := has_sdk;
     Claude_init := fun _ w => (Ok ([] : @Claude outside), w);
     Claude_translate := fun (fb : @Claude outside) text w =>
       (Ok ("<" +:+ text +:+ ">"), (fb ++ [text] : @Claude outside), w);
     Claude_translate_list := None;
     ClaudeCodeOptions := fun m => Ok (m : @Options outside);
     query := fun prompt _ _ (served : @Ext outside) =>
       (Ok [text_message (" " +:+ prompt +:+ " ")], (S served : @Ext outside));
     str_format := fun _ text language => Ok (language +:+ ": " +:+ text);
     render_markup := markup |}.

Definition world0 : @World outside :=
  @Build_World outside [] empty [] 0%nat.

Definition args (key : option string) (agentic_mode use_context : bool) (cap : Z)
  : @InitArgs outside :=
  @Build_InitArgs outside key "fr" None None None "1.0" use_context cap
    agentic_mode None tt.

(** The instance a successful construction returns (a dummy otherwise). *)
Definition built (r : result (@ClaudeCodeTranslator outside) * @World outside)
  : @ClaudeCodeTranslator outside :=
  match r.1 with
  | Ok self => self
  | Raise _ =>
      @Build_ClaudeCodeTranslator outside ("", "") "" None None false empty None
        "" "" "" false [] [] 0 empty empty
  end.

(** An agentic instance with context enabled and a cap of two pairs. *)
Definition agentic_self : @ClaudeCodeTranslator outside :=
  built (__init__ (H0 := services true) (args None true true 2) world0).

(** A proxy instance (agentic mode not requested, a key given). *)
Definition proxy_self : @ClaudeCodeTranslator outside :=
  built (__init__ (H0 := services true) (args (Some "sk-test") false false 5) world0).

End Doubles.

Module DeepSeekDoubles.
Import DeepSeek.

(** The parent keeps the arguments it was constructed with; nothing else
    is observed of the process. *)
Definition outside : Outside :=
  {| World := unit;
     Attrs := string * string;
     Kwargs := unit;
     float := string |}.

(** Modelled from the spec: the OpenAI-compatible adapter [ChatGPTAPI]
    ([chatgptapi_translator.py], not among the sources), of which the
    specification says that it is configured with an API base URL and a
    cyclable list of model identifiers. Its constructor keeps the key and
    the base URL; its [set_model_list] installs a cycle over the list it
    is given. *)
Definition parent : @ChatGPTAPI outside :=
  {| ChatGPTAPI_init := fun (a : @ParentArgs outside) (w : @World outside) =>
       (Ok ((p_key a, p_api_base a) : @Attrs outside), w);
     ChatGPTAPI_set_model_list :=
       fun l (self : @DeepSeekTranslator outside) (w : @World outside) =>
       (Ok tt, @Build_DeepSeekTranslator outside (attrs self) (cycle_of l), w) |}.

Definition args (base : option string) : @InitArgs outside :=
  @Build_InitArgs outside "sk-test" "fr" base None None "1.0" false 0 tt.

(** An instance, as the constructor returns it under [parent]. *)
Definition deepseek_self : @DeepSeekTranslator outside :=
  @Build_DeepSeekTranslator outside ("sk-test", DEFAULT_API_BASE)
    (cycle_of DEFAULT_MODEL_LIST).

End DeepSeekDoubles.

Module MoreDoubles.
Import ClaudeCode ModelChoice.

(** An SDK whose second and later queries fail. *)
Definition rate_limit : exn := Exn "RateLimitError" ["Exception"] "429".

Definition flaky_services : @Services Doubles.outside :=
  {| HAS_CLAUDE_CODE_SDK := true;
     Claude_init := fun _ w => (Ok ([] : @Claude Doubles.outside), w);
     Claude_translate := fun (fb : @Claude Doubles.outside) text w =>
       (Ok ("<" +:+ text +:+ ">"), (fb ++ [text] : @Claude Doubles.outside), w);
     Claude_translate_list := None;
     ClaudeCodeOptions := fun m => Ok (m : @Options Doubles.outside);
     query := fun prompt _ _ (served : @Ext Doubles.outside) =>
       match served with
       | O => (Ok [Doubles.text_message (" " +:+ prompt +:+ " ")],
               (1%nat : @Ext Doubles.outside))
       | S _ => (Raise rate_limit, (S served : @Ext Doubles.outside))
       end;
     str_format := fun _ text language => Ok (language +:+ ": " +:+ text);
     render_markup := Doubles.markup |}.

(** A fallback class with a [translate_list] of its own, which answers
    every entry, blank or not. *)
Definition batch_services : @Services Doubles.outside :=
  {| HAS_CLAUDE_CODE_SDK := false;
     Claude_init := fun _ w => (Ok ([] : @Claude Doubles.outside), w);
     Claude_translate := fun (fb : @Claude Doubles.outside) text w =>
       (Ok ("<" +:+ text +:+ ">"), (fb ++ [text] : @Claude Doubles.outside), w);
     Claude_translate_list :=
       Some (fun (fb : @Claude Doubles.outside) texts w =>
               (Ok ((fun text => "<" +:+ text +:+ ">") <$> texts),
                (fb ++ texts : @Claude Doubles.outside), w));
     ClaudeCodeOptions := fun m => Ok (m : @Options Doubles.outside);
     query := fun prompt _ _ (served : @Ext Doubles.outside) =>
       (Ok [Doubles.text_message prompt], (S served : @Ext Doubles.outside));
     str_format := fun _ text language => Ok (language +:+ ": " +:+ text);
     render_markup := Doubles.markup |}.

(** A fallback class without [set_claude_model], and one with it (the
    fallback then records the name). *)
Definition no_model_setter : @FallbackModel Doubles.outside :=
  {| Claude_set_claude_model := None |}.

Definition model_setter : @FallbackModel Doubles.outside :=
  {| Claude_set_claude_model :=
       Some (fun (fb : @Claude Doubles.outside) name w =>
               (Ok tt, (fb ++ [name] : @Claude Doubles.outside), w)) |}.

(** A stream with a message without content and a block without text. *)
Definition mixed_stream : list Message :=
  [ {| message_content := None |};
    {| message_content :=
         Some [ {| block_text := Some "Bon" |}; {| block_text := None |};
                {| block_text := Some "jour" |} ] |};
    {| message_content := Some [] |};
    Doubles.text_message " !" ].

End MoreDoubles.

(** * Properties *)

(** ** Strings *)

Lemma append_cons (c : ascii) (s t : string) : String c s +:+ t = String c (s +:+ t).
Proof. reflexivity. Qed.

Lemma append_nil_r (s : string) : s +:+ "" = s.
Proof. induction s as [|c s IH]; [reflexivity|]. by rewrite append_cons, IH. Qed.

Lemma append_assoc (s1 s2 s3 : string) : (s1 +:+ s2) +:+ s3 = s1 +:+ (s2 +:+ s3).
Proof. induction s1 as [|c s1 IH]; [reflexivity|]. by rewrite !append_cons, IH. Qed.

(** ** The context buffer *)

Module ContextBuffer.
Import ClaudeCode.

Section Buffer.

Context `{Outside}.

Implicit Types (self s : ClaudeCodeTranslator) (h calls : list (string * string)).

Lemma save_context_disabled s text t_text :
  context_flag s = false -> save_context s text t_text = s.
Proof. intros Hf. unfold save_context. by rewrite Hf. Qed.

Lemma save_context_flag s text t_text :
  context_flag (save_context s text t_text) = context_flag s.
Proof.
  unfold save_context. destruct (context_flag s) eqn:Hf; cbn; [|done].
  by case_match.
Qed.

Lemma save_context_limit s text t_text :
  context_paragraph_limit (save_context s text t_text) = context_paragraph_limit s.
Proof.
  unfold save_context. destruct (context_flag s); cbn; [|done].
  by case_match.
Qed.

Lemma save_context_fallback s text t_text :
  _fallback (save_context s text t_text) = _fallback s.
Proof.
  unfold save_context. destruct (context_flag s); cbn; [|done].
  by case_match.
Qed.

Lemma save_context_all_cons s p calls :
  save_context_all s (p :: calls) = save_context_all (save_context s p.1 p.2) calls.
Proof. reflexivity. Qed.

Lemma save_context_all_flag calls : forall s,
  context_flag (save_context_all s calls) = context_flag s.
Proof.
  induction calls as [|p calls IH]; intros s; [done|].
  rewrite save_context_all_cons, IH. apply save_context_flag.
Qed.

Lemma save_context_all_limit calls : forall s,
  context_paragraph_limit (save_context_all s calls) = context_paragraph_limit s.
Proof.
  induction calls as [|p calls IH]; intros s; [done|].
  rewrite save_context_all_cons, IH. apply save_context_limit.
Qed.

Lemma save_context_all_disabled calls : forall s,
  context_flag s = false -> save_context_all s calls = s.
Proof.
  induction calls as [|p calls IH]; intros s Hf; [done|].
  rewrite save_context_all_cons, save_context_disabled by done. by apply IH.
Qed.

Lemma retained_length cap h :
  0 <= cap -> length (retained cap h) = Nat.min (length h) (Z.to_nat cap).
Proof. intros _. unfold retained. rewrite length_drop. lia. Qed.

(** One call moves the window over the history by one pair. *)
Lemma retained_snoc cap h p :
  0 <= cap ->
  retained cap (h ++ [p]) =
    if cap <? Z.of_nat (length (retained cap h ++ [p]))
    then drop 1 (retained cap h ++ [p])
    else retained cap h ++ [p].
Proof.
  intros Hcap. rewrite length_app, retained_length by done. cbn [length].
  unfold retained. rewrite length_app. cbn [length].
  destruct (Z.ltb_spec cap (Z.of_nat (Nat.min (length h) (Z.to_nat cap) + 1))) as [Hlt|Hge].
  - assert (Z.to_nat cap <= length h)%nat as Hle by lia.
    rewrite <- drop_app_le by lia. rewrite drop_drop. f_equal. lia.
  - assert (length h < Z.to_nat cap)%nat as Hlt by lia.
    replace (length h + 1 - Z.to_nat cap)%nat with 0%nat by lia.
    replace (length h - Z.to_nat cap)%nat with 0%nat by lia.
    done.
Qed.

(** The buffer of an enabled adapter follows the window. *)
Lemma save_context_window s h p :
  context_flag s = true ->
  0 <= context_paragraph_limit s ->
  context_list s = (retained (context_paragraph_limit s) h).*1 ->
  context_translated_list s = (retained (context_paragraph_limit s) h).*2 ->
  context_list (save_context s p.1 p.2)
    = (retained (context_paragraph_limit s) (h ++ [p])).*1
  /\ context_translated_list (save_context s p.1 p.2)
    = (retained (context_paragraph_limit s) (h ++ [p])).*2.
Proof.
  intros Hf Hcap Hl Ht. unfold save_context. rewrite Hf. cbn [negb].
  rewrite (retained_snoc _ h p Hcap).
  rewrite Hl, Ht, !length_app, length_fmap. cbn [length].
  case_match; cbn [context_list context_translated_list set_context].
  - rewrite !fmap_drop, !fmap_app. done.
  - rewrite !fmap_app. done.
Qed.

Lemma save_context_all_window calls : forall s h,
  context_flag s = true ->
  0 <= context_paragraph_limit s ->
  context_list s = (retained (context_paragraph_limit s) h).*1 ->
  context_translated_list s = (retained (context_paragraph_limit s) h).*2 ->
  context_list (save_context_all s calls)
    = (retained (context_paragraph_limit s) (h ++ calls)).*1
  /\ context_translated_list (save_context_all s calls)
    = (retained (context_paragraph_limit s) (h ++ calls)).*2.
Proof.
  induction calls as [|p calls IH]; intros s h Hf Hcap Hl Ht.
  - rewrite app_nil_r. done.
  - rewrite save_context_all_cons.
    destruct (save_context_window s h p Hf Hcap Hl Ht) as [Hl' Ht'].
    specialize (IH (save_context s p.1 p.2) (h ++ [p])).
    rewrite save_context_flag, save_context_limit in IH.
    specialize (IH Hf Hcap Hl' Ht').
    rewrite <- app_assoc in IH. exact IH.
Qed.

(** From a new buffer, an enabled adapter holds the window over all the
    calls made. *)
Lemma save_context_all_fresh s calls :
  fresh s ->
  context_flag s = true ->
  0 <= context_paragraph_limit s ->
  context_list (save_context_all s calls)
    = (retained (context_paragraph_limit s) calls).*1
  /\ context_translated_list (save_context_all s calls)
    = (retained (context_paragraph_limit s) calls).*2.
Proof.
  intros [Hl Ht] Hf Hcap.
  apply (save_context_all_window calls s []); [done..| |].
  - by rewrite Hl.
  - by rewrite Ht.
Qed.

Lemma fold_left_append {A} (f : A -> string) (l : list A) : forall init,
  fold_left (fun acc x => acc +:+ f x) l init = init +:+ join (f <$> l).
Proof.
  induction l as [|x l IH]; intros init.
  - cbn. by rewrite append_nil_r.
  - cbn [fold_left fmap list_fmap join fold_right]. rewrite IH.
    apply append_assoc.
Qed.

Lemma create_context_messages_empty s :
  context_flag s = false \/ context_list s = [] ->
  create_context_messages s = "".
Proof.
  unfold create_context_messages. intros [-> | ->]; [done|].
  by rewrite orb_true_r.
Qed.

Lemma create_context_messages_render s :
  context_flag s = true ->
  context_list s <> [] ->
  create_context_messages s =
    context_header
      +:+ join (context_block <$> zip (context_list s) (context_translated_list s)).
Proof.
  intros Hf Hne. unfold create_context_messages. rewrite Hf.
  destruct (context_list s) as [|x l] eqn:Hl; [done|]. cbn [negb truthy_list orb].
  apply fold_left_append.
Qed.

(** C5. Context buffer invariant. On an adapter whose buffer starts empty,
    with a cap [N >= 0]: after any sequence of [save_context] calls the two
    lists have the same length, at most [N]; a call on an adapter with
    context disabled changes nothing; and after [N + k] calls ([k >= 1])
    with context enabled the buffer holds exactly the last [N] pairs, oldest
    first. *)
Theorem context_buffer_invariant self calls :
  fresh self ->
  0 <= context_paragraph_limit self ->
  let N := context_paragraph_limit self in
  let after := save_context_all self calls in
  (length (context_list after) = length (context_translated_list after)
   /\ Z.of_nat (length (context_list after)) <= N)
  /\ (forall s text t_text,
        context_flag s = false -> save_context s text t_text = s)
  /\ (context_flag self = true ->
      forall k : nat, (1 <= k)%nat -> length calls = (Z.to_nat N + k)%nat ->
        context_list after = (drop k calls).*1
        /\ context_translated_list after = (drop k calls).*2
        /\ length (drop k calls) = Z.to_nat N).
Proof.
  intros Hfresh Hcap N after. split; [|split].
  - subst after. destruct (context_flag self) eqn:Hf.
    + destruct (save_context_all_fresh self calls Hfresh Hf Hcap) as [-> ->].
      rewrite !length_fmap, retained_length by done. split; [done|lia].
    + rewrite save_context_all_disabled by done.
      destruct Hfresh as [-> ->]. cbn. split; [done|lia].
  - intros s text t_text. apply save_context_disabled.
  - intros Hf k Hk Hlen. subst after.
    destruct (save_context_all_fresh self calls Hfresh Hf Hcap) as [-> ->].
    unfold retained. fold N. rewrite Hlen, length_drop.
    replace (Z.to_nat N + k - Z.to_nat N)%nat with k by lia.
    repeat split; lia.
Qed.

(** C6. [create_context_messages] returns the empty string when context is
    disabled or the buffer is empty; otherwise it returns the header line
    followed by one block [Original: <source>\nTranslation: <translation>]
    (closed by a blank line) per pair of the buffer, in the order of the
    buffer; and the buffer of an adapter that started empty lists the
    retained pairs in the order they were saved, oldest first. *)
Theorem create_context_messages_spec self :
  (context_flag self = false \/ context_list self = [] ->
     create_context_messages self = "")
  /\ (context_flag self = true -> context_list self <> [] ->
       create_context_messages self =
         context_header
           +:+ join (context_block <$>
                       zip (context_list self) (context_translated_list self)))
  /\ (forall calls,
        fresh self -> context_flag self = true ->
        0 <= context_paragraph_limit self ->
        retained (context_paragraph_limit self) calls <> [] ->
        create_context_messages (save_context_all self calls) =
          context_header
            +:+ join (context_block <$>
                        retained (context_paragraph_limit self) calls)).
Proof.
  split; [|split].
  - apply create_context_messages_empty.
  - apply create_context_messages_render.
  - intros calls Hfresh Hf Hcap Hne.
    destruct (save_context_all_fresh self calls Hfresh Hf Hcap) as [Hl Ht].
    rewrite create_context_messages_render.
    + by rewrite Hl, Ht, zip_fst_snd.
    + by rewrite save_context_all_flag.
    + rewrite Hl. by destruct (retained _ calls).
Qed.

End Buffer.

Lemma context_buffer_invariant_witness :
  let after :=
    save_context_all Doubles.agentic_self [("a", "A"); ("b", "B"); ("c", "C")] in
  context_list after = ["b"; "c"] /\ context_translated_list after = ["B"; "C"].
Proof.
  intros after.
  destruct (context_buffer_invariant Doubles.agentic_self
              [("a", "A"); ("b", "B"); ("c", "C")]) as (_ & _ & Hlast).
  - split; reflexivity.
  - vm_compute. discriminate.
  - destruct (Hlast eq_refl 1%nat) as (Hl & Ht & _); [lia | reflexivity |].
    split; [exact Hl | exact Ht].
Defined.

Lemma create_context_messages_spec_witness :
  create_context_messages
    (save_context_all Doubles.agentic_self [("a", "A"); ("b", "B"); ("c", "C")])
  = "Previous context:" +:+ nl
    +:+ "Original: b" +:+ nl +:+ "Translation: B" +:+ nl +:+ nl
    +:+ "Original: c" +:+ nl +:+ "Translation: C" +:+ nl +:+ nl.
Proof.
  destruct (create_context_messages_spec Doubles.agentic_self) as (_ & _ & Hhist).
  rewrite (Hhist [("a", "A"); ("b", "B"); ("c", "C")]).
  - reflexivity.
  - split; reflexivity.
  - reflexivity.
  - vm_compute. discriminate.
  - vm_compute. discriminate.
Defined.

End ContextBuffer.

(** ** The sync/async bridge *)

Module Bridge.
Import ClaudeCode.

Section Wrapper.

Context `{Outside} {A : Type}.

Implicit Types (coro : Coro A) (w : World) (e : exn).

(** Expose the two branches of the bridge. *)
Local Ltac open_bridge :=
  unfold _sync_wrapper, get_running_loop, run_in_worker_thread, asyncio_run.

(** Outside a running loop the bridge is [asyncio.run]. *)
Lemma sync_wrapper_no_loop coro w :
  _sync_wrapper false coro w = coro w.
Proof.
  open_bridge. reflexivity.
Qed.

(** Inside a running loop an exception that is not a [RuntimeError] comes
    back from the worker thread as it is. *)
Lemma sync_wrapper_in_loop_other coro w e w' :
  coro w = (Raise e, w') ->
  isinstance e "RuntimeError" = false ->
  _sync_wrapper true coro w = (Raise e, w').
Proof.
  intros Hc He.
  open_bridge.
  by rewrite Hc, He.
Qed.

(** Inside a running loop a [RuntimeError] of the coroutine is caught by
    the [except] clause, whose [asyncio.run] then refuses to start. *)
Lemma sync_wrapper_in_loop_runtime_error coro w e w' :
  coro w = (Raise e, w') ->
  isinstance e "RuntimeError" = true ->
  _sync_wrapper true coro w = (Raise (RuntimeError asyncio_run_message), w').
Proof.
  intros Hc He.
  open_bridge.
  by rewrite Hc, He.
Qed.

(** The process state after the bridge is the one the coroutine leaves. *)
Lemma sync_wrapper_state in_loop coro w :
  (_sync_wrapper in_loop coro w).2 = (coro w).2.
Proof.
  open_bridge.
  destruct in_loop; [|done].
  destruct (coro w) as [[v|e] w']; [done|]. cbn. by case_match.
Qed.

(** A value comes back only if the coroutine returned it. *)
Lemma sync_wrapper_ok_inv in_loop coro w v w' :
  _sync_wrapper in_loop coro w = (Ok v, w') -> coro w = (Ok v, w').
Proof.
  open_bridge.
  destruct in_loop; [|done].
  destruct (coro w) as [[v0|e] w0]; [done|]. cbn. by case_match.
Qed.

(** C4. For every coroutine that completes with a value [v], the bridge
    returns [v], leaving the state the coroutine leaves, both when called
    from a thread with no running event loop and when called from inside a
    running one. *)
Theorem sync_wrapper_returns_value coro w v w' :
  coro w = (Ok v, w') ->
  _sync_wrapper false coro w = (Ok v, w')
  /\ _sync_wrapper true coro w = (Ok v, w').
Proof.
  intros Hc. split.
  - by rewrite sync_wrapper_no_loop.
  - open_bridge.
    by rewrite Hc.
Qed.

End Wrapper.

Lemma sync_wrapper_returns_value_witness :
  let coro : @Coro Doubles.outside Z :=
    fun w => (Ok 42, written "working" w) in
  _sync_wrapper false coro Doubles.world0 = (Ok 42, written "working" Doubles.world0)
  /\ _sync_wrapper true coro Doubles.world0 = (Ok 42, written "working" Doubles.world0).
Proof.
  intros coro.
  apply (sync_wrapper_returns_value coro Doubles.world0 42
           (written "working" Doubles.world0)).
  reflexivity.
Defined.

(** C3. The bridge called from inside a running event loop, with a
    coroutine that raises [NotImplementedError("boom")] (a subclass of
    [RuntimeError]): the caller does not see that error but the
    [RuntimeError] of [asyncio.run], with another message; called outside a
    running loop, the same coroutine's error comes back as it is. *)
Theorem sync_wrapper_replaces_runtime_error :
  let coro : @Coro Doubles.outside string :=
    fun w => (Raise (NotImplementedError "boom"), w) in
  _sync_wrapper false coro Doubles.world0
    = (Raise (NotImplementedError "boom"), Doubles.world0)
  /\ _sync_wrapper true coro Doubles.world0
    = (Raise (RuntimeError "asyncio.run() cannot be called from a running event loop"),
       Doubles.world0)
  /\ NotImplementedError "boom"
     <> RuntimeError "asyncio.run() cannot be called from a running event loop".
Proof.
  intros coro. split; [|split].
  - reflexivity.
  - apply (sync_wrapper_in_loop_runtime_error coro Doubles.world0
             (NotImplementedError "boom")); reflexivity.
  - discriminate.
Qed.

End Bridge.

(** ** Construction and the fallback *)

Module Construction.
Import ClaudeCode.

Section Init.

Context `{Services}.

Implicit Types (a : InitArgs) (w : World) (self s : ClaudeCodeTranslator).

(** What [__init__] returns when it returns an instance. *)
Lemma init_ok_inv a w self w' :
  __init__ a w = (Ok self, w') ->
  fresh self
  /\ context_flag self = arg_context_flag a
  /\ context_paragraph_limit self = arg_context_paragraph_limit a
  /\ (arg_agentic a = false -> is_Some (_fallback self))
  /\ (arg_agentic a = true -> _fallback self = None /\ w' = w).
Proof.
  unfold __init__, fresh.
  destruct (arg_agentic a) eqn:Hag, HAS_CLAUDE_CODE_SDK eqn:Hsdk; cbn;
    intros Hinit; try discriminate.
  - injection Hinit as <- <-. cbn. repeat split; done.
  - destruct (arg_key a) as [key|]; [|discriminate].
    destruct (truthy_str key); [|discriminate].
    destruct (Claude_init _ w) as [[fb|e] w1]; [|discriminate].
    injection Hinit as <- <-. cbn. repeat split; eauto; done.
  - destruct (arg_key a) as [key|]; [|discriminate].
    destruct (truthy_str key); [|discriminate].
    destruct (Claude_init _ w) as [[fb|e] w1]; [|discriminate].
    injection Hinit as <- <-. cbn. repeat split; eauto; done.
Qed.

(** With a fallback, [translate] is the fallback's [translate], run after
    the text is printed; when the text cannot be printed, the error of the
    [print] comes out and the fallback is not called. *)
Lemma translate_fallback in_loop s fb text w :
  _fallback s = Some fb ->
  translate in_loop s text w =
    match render_markup text with
    | Ok _ =>
        (let '(r, fb', w') := Claude_translate fb text (written text w) in
         (r, set_fallback s fb', w'))
    | Raise e => (Raise e, s, w)
    end.
Proof.
  intros Hfb. unfold translate, print, rotate_key.
  destruct (render_markup text); [|done]. by rewrite Hfb.
Qed.

(** C2. When the import of [claude_code_sdk] failed, construction with
    [agentic=True] raises the [ImportError] carrying the installation
    instructions, whatever the other arguments, and returns no instance;
    nothing else has happened by then. *)
Theorem agentic_without_sdk_raises a w :
  HAS_CLAUDE_CODE_SDK = false ->
  arg_agentic a = true ->
  __init__ a w = (Raise (ImportError import_error_message), w).
Proof. intros Hsdk Hag. unfold __init__. by rewrite Hsdk, Hag. Qed.

(** C1, amended. When agentic mode is not requested, whether the SDK is
    available or not: construction raises the credential error if no key is
    given ([None] or [""]); with a key, construction returns an instance
    holding the fallback instance as soon as the fallback's own
    construction succeeds; an instance that construction returns always
    holds a fallback instance; and on an instance holding a fallback,
    [translate], for a text that the console prints, returns exactly what
    the fallback's [translate] returns for the same text, and the instance
    holds the fallback afterwards, so that every later call is delegated as
    well. *)
Theorem proxy_when_not_agentic a w :
  arg_agentic a = false ->
  (truthy_opt_str (arg_key a) = false ->
     __init__ a w = (Raise (ValueError credential_error_message), w))
  /\ (forall key fb w',
        arg_key a = Some key -> truthy_str key = true ->
        Claude_init (fallback_args a key) w = (Ok fb, w') ->
        exists self, __init__ a w = (Ok self, w') /\ _fallback self = Some fb)
  /\ (forall self w', __init__ a w = (Ok self, w') -> is_Some (_fallback self))
  /\ (forall in_loop s fb text w0,
        _fallback s = Some fb ->
        render_markup text = Ok tt ->
        let '(r, fb', w1) := Claude_translate fb text (written text w0) in
        translate in_loop s text w0 = (r, set_fallback s fb', w1)
        /\ _fallback (set_fallback s fb') = Some fb').
Proof.
  intros Hag. split; [|split; [|split]].
  - intros Hkey. unfold __init__. rewrite Hag. cbn.
    destruct (arg_key a) as [key|]; [|done].
    cbn in Hkey. by rewrite Hkey.
  - intros key fb w' Hkey Htruthy Hfb. unfold __init__.
    rewrite Hag, Hkey, Htruthy, Hfb. cbn. eauto.
  - intros self w' Hinit.
    by apply (init_ok_inv a w self w' Hinit).
  - intros in_loop s fb text w0 Hfb Hprinted.
    rewrite (translate_fallback in_loop s fb text w0 Hfb), Hprinted.
    by destruct (Claude_translate fb text (written text w0)) as [[r fb'] w1].
Qed.

End Init.

Lemma agentic_without_sdk_raises_witness :
  __init__ (H0 := Doubles.services false)
    (Doubles.args (Some "sk-test") true false 5) Doubles.world0
  = (Raise (ImportError import_error_message), Doubles.world0).
Proof.
  apply (agentic_without_sdk_raises (H0 := Doubles.services false)); reflexivity.
Defined.

Lemma proxy_when_not_agentic_witness :
  __init__ (H0 := Doubles.services true)
    (Doubles.args None false false 5) Doubles.world0
  = (Raise (ValueError credential_error_message), Doubles.world0)
  /\ (translate (H0 := Doubles.services true) false Doubles.proxy_self "Bonjour"
        Doubles.world0).1.1
     = Ok "<Bonjour>".
Proof.
  destruct (proxy_when_not_agentic (H0 := Doubles.services true)
              (Doubles.args None false false 5) Doubles.world0 eq_refl)
    as (Hcred & _ & _ & Hproxy).
  split.
  - apply Hcred. reflexivity.
  - destruct (Hproxy false Doubles.proxy_self [] "Bonjour" Doubles.world0
                eq_refl eq_refl) as [Hdelegated _].
    rewrite Hdelegated. reflexivity.
Defined.

(** C1 as stated fails when agentic mode is requested and the SDK is
    unavailable: with no key, construction raises the [ImportError], not
    the credential error; with a key, it raises the same [ImportError]
    instead of returning a proxy. It also fails on a proxy for a text that
    the console refuses to print, such as [[/x]]: [translate] raises the
    error of the [print] and the fallback, which would have answered, is
    not called. *)
Lemma proxy_claim_counterexample :
  let sdk_missing := Doubles.services false in
  let run key :=
    __init__ (H0 := sdk_missing) (Doubles.args key true false 5) Doubles.world0 in
  (HAS_CLAUDE_CODE_SDK (Services := sdk_missing) = false
   /\ run None = (Raise (ImportError import_error_message), Doubles.world0)
   /\ (forall msg, (run None).1 <> Raise (ValueError msg))
   /\ run (Some "sk-test") = (Raise (ImportError import_error_message), Doubles.world0)
   /\ (forall self, (run (Some "sk-test")).1 <> Ok self))
  /\ (_fallback Doubles.proxy_self = Some ([] : @Claude Doubles.outside)
      /\ translate (H0 := Doubles.services true) false Doubles.proxy_self "[/x]"
           Doubles.world0
         = (Raise Doubles.markup_error, Doubles.proxy_self, Doubles.world0)
      /\ (Claude_translate (Services := Doubles.services true)
            ([] : @Claude Doubles.outside) "[/x]" Doubles.world0).1.1
         = Ok "<[/x]>").
Proof.
  intros sdk_missing run. split.
  - repeat split; try reflexivity.
    + intros msg. discriminate.
    + intros self. discriminate.
  - repeat split; reflexivity.
Qed.

End Construction.

(** ** Agentic mode *)

Module Agentic.
Import ClaudeCode.

(** *** Blank entries *)

Lemma lstrip_all_space (s : string) : all_space s = true -> lstrip s = "".
Proof.
  induction s as [|c s IH]; [done|]. cbn.
  destruct (isspace c); [|done]. exact IH.
Qed.

Lemma lstrip_not_all_space (s : string) :
  all_space s = false ->
  exists c r, lstrip s = String c r /\ isspace c = false.
Proof.
  induction s as [|c s IH]; [done|]. cbn.
  destruct (isspace c) eqn:Hc; [exact IH|]. eauto.
Qed.

Lemma rstrip_keeps_head (c : ascii) (r : string) :
  isspace c = false -> exists r', rstrip (String c r) = String c r'.
Proof.
  intros Hc. cbn. rewrite Hc. destruct (rstrip r); eauto.
Qed.

(** [text.strip()] is falsy exactly on the blank entries. *)
Lemma strip_truthy (s : string) : truthy_str (strip s) = negb (all_space s).
Proof.
  unfold strip. destruct (all_space s) eqn:Hs.
  - by rewrite lstrip_all_space.
  - destruct (lstrip_not_all_space s Hs) as (c & r & -> & Hc).
    destruct (rstrip_keeps_head c r Hc) as [r' ->]. done.
Qed.

(** *** The environment *)

Section Environment.

Implicit Types (env : gmap string string) (name value : string).

Lemma setenv_if_not_lookup name value env key :
  setenv_if_not name value env !! key =
    if decide (key = name)
    then (if truthy_opt_str (env !! name) then env !! name else Some value)
    else env !! key.
Proof.
  unfold setenv_if_not.
  destruct (truthy_opt_str (env !! name)); cbn [negb].
  - by case_decide; subst.
  - case_decide; subst.
    + by rewrite lookup_insert_eq.
    + by rewrite lookup_insert_ne.
Qed.

Lemma configure_environment_lookup env key :
  configure_environment env !! key =
    if decide (key = "ANTHROPIC_MODEL")
    then (if truthy_opt_str (env !! key) then env !! key else Some default_model)
    else if decide (key = "ANTHROPIC_BASE_URL")
    then (if truthy_opt_str (env !! key) then env !! key else Some default_base_url)
    else env !! key.
Proof.
  unfold configure_environment. rewrite !setenv_if_not_lookup.
  repeat case_decide; subst; try done.
Qed.

(** A variable set to a non-empty value keeps it. *)
Lemma configure_environment_keeps env key value :
  env !! key = Some value -> value <> "" ->
  configure_environment env !! key = Some value.
Proof.
  intros Hk Hv. rewrite configure_environment_lookup, Hk.
  assert (truthy_str value = true) as Ht by (by destruct value).
  cbn. rewrite Ht. by repeat case_decide.
Qed.

(** The other variables are not touched. *)
Lemma configure_environment_frame env key :
  key <> "ANTHROPIC_BASE_URL" -> key <> "ANTHROPIC_MODEL" ->
  configure_environment env !! key = env !! key.
Proof.
  intros Hb Hm. rewrite configure_environment_lookup. by repeat case_decide.
Qed.

End Environment.

Section Translate.

Context `{Services}.

Implicit Types (self s : ClaudeCodeTranslator) (w : World) (text : string).

(** Follow the coroutine through the rendering of the prompt, the building
    of the options and the query, closing the branches that do not reach
    the current claim. *)
Local Ltac run_coroutine :=
  unfold _agentic_translate;
  destruct (str_format _ _ _) as [?body|?e]; [|done];
  destruct (ClaudeCodeOptions _) as [?options|?e]; [|done];
  destruct (query _ _ _ _) as [[?messages|?e] ?x]; try done.

(** The environment after the coroutine: as before when the prompt or the
    options fail, configured otherwise. *)
Lemma agentic_translate_environ s text w :
  environ (_agentic_translate s text w).2 =
    if is_ok (str_format (prompt_template s) text (language s))
       && is_ok (ClaudeCodeOptions (sdk_options s))
    then configure_environment (environ w)
    else environ w.
Proof.
  run_coroutine.
Qed.

(** A coroutine that returns a value has sent exactly one prompt. *)
Lemma agentic_translate_prompts s text w t w' :
  _agentic_translate s text w = (Ok t, w') ->
  length (sdk_prompts w') = S (length (sdk_prompts w)).
Proof.
  run_coroutine.
  intros [= _ <-]. cbn. rewrite length_app. cbn. lia.
Qed.

(** Without a fallback, [translate] goes through the bridge, between its
    two [print]s. *)
Lemma translate_agentic in_loop s text w :
  _fallback s = None ->
  translate in_loop s text w =
    match render_markup text with
    | Raise e => (Raise e, s, w)
    | Ok _ =>
        match _sync_wrapper in_loop (_agentic_translate s text) (written text w) with
        | (Ok t_text, w') =>
            match render_markup (colored t_text) with
            | Ok _ =>
                (Ok t_text,
                 if context_flag s then save_context s text t_text else s,
                 written (colored t_text) w')
            | Raise e =>
                (Raise e,
                 if context_flag s then save_context s text t_text else s,
                 w')
            end
        | (Raise e, w') => (Raise e, s, w')
        end
    end.
Proof.
  intros Hfb. unfold translate, print, rotate_key.
  destruct (render_markup text); [|done]. rewrite Hfb.
  destruct (_sync_wrapper _ _ _) as [[t|e] w']; [|done].
  by destruct (render_markup (colored t)).
Qed.

Lemma translate_agentic_environ in_loop s text w :
  _fallback s = None ->
  environ (translate in_loop s text w).2 =
    if is_ok (render_markup text)
    then environ (_agentic_translate s text (written text w)).2
    else environ w.
Proof.
  intros Hfb. rewrite (translate_agentic _ _ _ _ Hfb).
  destruct (render_markup text); [|done]. cbn [is_ok].
  rewrite <- (Bridge.sync_wrapper_state in_loop).
  destruct (_sync_wrapper _ _ _) as [[t|e] w']; [|done].
  by destruct (render_markup (colored t)).
Qed.

Lemma translate_agentic_ok in_loop s text w t s' w' :
  _fallback s = None ->
  translate in_loop s text w = (Ok t, s', w') ->
  _fallback s' = None
  /\ length (sdk_prompts w') = S (length (sdk_prompts w)).
Proof.
  intros Hfb. rewrite (translate_agentic _ _ _ _ Hfb).
  destruct (render_markup text); [|done].
  destruct (_sync_wrapper _ _ _) as [[t0|e] w0] eqn:Hrun; [|done].
  destruct (render_markup (colored t0)); [|done].
  intros [= <- <- <-].
  apply Bridge.sync_wrapper_ok_inv, agentic_translate_prompts in Hrun.
  split.
  - destruct (context_flag s); [|done].
    by rewrite ContextBuffer.save_context_fallback.
  - exact Hrun.
Qed.

(** X16. What [translate] does to the environment, on an adapter without
    a fallback: a variable that holds a non-empty value keeps it; no
    variable other than [ANTHROPIC_BASE_URL] and [ANTHROPIC_MODEL] changes;
    each of these two either keeps its state or, being unset or empty,
    receives its default; and both are configured in this way as soon as
    the source text is printed and the prompt and the SDK options are
    built. *)
Theorem agentic_translate_environment in_loop self text w :
  _fallback self = None ->
  let env := environ w in
  let env' := environ (translate in_loop self text w).2 in
  (forall name value,
     env !! name = Some value -> value <> "" -> env' !! name = Some value)
  /\ (forall name,
        name <> "ANTHROPIC_BASE_URL" -> name <> "ANTHROPIC_MODEL" ->
        env' !! name = env !! name)
  /\ (env' !! "ANTHROPIC_BASE_URL" = env !! "ANTHROPIC_BASE_URL"
      \/ truthy_opt_str (env !! "ANTHROPIC_BASE_URL") = false
         /\ env' !! "ANTHROPIC_BASE_URL" = Some default_base_url)
  /\ (env' !! "ANTHROPIC_MODEL" = env !! "ANTHROPIC_MODEL"
      \/ truthy_opt_str (env !! "ANTHROPIC_MODEL") = false
         /\ env' !! "ANTHROPIC_MODEL" = Some default_model)
  /\ (is_ok (render_markup text) = true ->
      is_ok (str_format (prompt_template self) text (language self)) = true ->
      is_ok (ClaudeCodeOptions (sdk_options self)) = true ->
      env' = configure_environment env).
Proof.
  intros Hfb env env'. subst env'.
  rewrite (translate_agentic_environ _ _ _ _ Hfb), agentic_translate_environ.
  change (environ (written text w)) with env.
  destruct (render_markup text) as [printed|e]; cbn [is_ok].
  2: { repeat split; auto. intros Hp. discriminate. }
  destruct (is_ok (str_format _ _ _) && is_ok (ClaudeCodeOptions _)) eqn:Hbuilt.
  - repeat split.
    + apply configure_environment_keeps.
    + apply configure_environment_frame.
    + rewrite configure_environment_lookup. cbn.
      destruct (truthy_opt_str (env !! "ANTHROPIC_BASE_URL")); auto.
    + rewrite configure_environment_lookup. cbn.
      destruct (truthy_opt_str (env !! "ANTHROPIC_MODEL")); auto.
  - repeat split; auto.
    intros _ Hf Ho. by rewrite Hf, Ho in Hbuilt.
Qed.

(** *** The list loop *)

Lemma translate_list_no_fallback in_loop s text_list w :
  _fallback s = None ->
  translate_list in_loop s text_list w = translate_list_loop in_loop s text_list [] w.
Proof. intros Hfb. unfold translate_list. by rewrite Hfb. Qed.

(** The loop returns a list exactly when the entries translate one after
    the other; the list is then what was built before, followed by the
    outputs. *)
Lemma translate_list_loop_translates in_loop text_list :
  forall s acc w out s' w',
    translate_list_loop in_loop s text_list acc w = (Ok out, s', w')
    <-> exists tail, out = acc ++ tail /\ translates in_loop s w text_list tail s' w'.
Proof.
  induction text_list as [|text rest IH]; intros s acc w out s' w'.
  - cbn. split.
    + intros [= <- <- <-]. exists []. rewrite app_nil_r. split; [done|constructor].
    + intros (tail & -> & Htr). inversion Htr; subst. by rewrite app_nil_r.
  - cbn [translate_list_loop]. rewrite strip_truthy.
    destruct (all_space text) eqn:Hsp; cbn [negb].
    + rewrite IH. split.
      * intros (tail & -> & Htr). exists ("" :: tail).
        rewrite <- app_assoc. split; [done|]. by constructor.
      * intros (tail & -> & Htr). inversion Htr; subst.
        -- eexists. rewrite <- app_assoc. split; [done|]. done.
        -- unfold blank in *. congruence.
    + destruct (translate in_loop s text w) as [[[t|e] s1] w1] eqn:Htext.
      * rewrite IH. split.
        -- intros (tail & -> & Htr). exists (t :: tail).
           rewrite <- app_assoc. split; [done|].
           eapply translates_entry; [|done..]. unfold blank. congruence.
        -- intros (tail & -> & Htr). inversion Htr; subst.
           ++ unfold blank in *. congruence.
           ++ match goal with
              | Ht : translate _ _ _ _ = (Ok _, _, _) |- _ =>
                  rewrite Htext in Ht; injection Ht as <- <- <-
              end.
              eexists. rewrite <- app_assoc. split; [done|]. done.
      * split; [done|].
        intros (tail & -> & Htr). inversion Htr; subst.
        -- unfold blank in *. congruence.
        -- congruence.
Qed.

Lemma translates_length in_loop s w text_list out s' w' :
  translates in_loop s w text_list out s' w' -> length out = length text_list.
Proof. induction 1; cbn; congruence. Qed.

Lemma translates_blank_lookup in_loop s w text_list out s' w' :
  translates in_loop s w text_list out s' w' ->
  forall (i : nat) text, text_list !! i = Some text -> blank text -> out !! i = Some "".
Proof.
  induction 1 as [| ? ? ? ? ? ? ? Hb Htr IH | ? ? ? ? ? ? ? ? ? ? Hnb Ht Htr IH];
    intros [|i] text0 Hi Hblank; cbn in *; try done.
  - by apply (IH i text0).
  - simplify_eq. done.
  - by apply (IH i text0).
Qed.

(** One prompt is sent per entry that is not blank, none for the others. *)
Lemma translates_prompts in_loop s w text_list out s' w' :
  translates in_loop s w text_list out s' w' ->
  _fallback s = None ->
  length (sdk_prompts w') =
    (length (sdk_prompts w) + length (non_blank text_list))%nat.
Proof.
  unfold non_blank.
  induction 1 as [| ? ? text ? ? ? ? Hb Htr IH
                  | ? ? text ? ? ? ? ? ? ? Hnb Ht Htr IH]; intros Hfb.
  - cbn. lia.
  - rewrite filter_cons_False; [by apply IH|].
    unfold blank in Hb. rewrite Hb. cbn. auto.
  - destruct (translate_agentic_ok _ _ _ _ _ _ _ Hfb Ht) as [Hfb1 Hlen].
    rewrite filter_cons_True.
    + rewrite (IH Hfb1), Hlen. cbn. lia.
    + unfold blank in Hnb. by destruct (all_space text).
Qed.

Lemma translates_all_blank in_loop s w text_list :
  Forall blank text_list ->
  translates in_loop s w text_list (replicate (length text_list) "") s w.
Proof. induction 1; cbn; by constructor. Qed.

(** C7. [translate_list] on an adapter without a fallback. The empty list
    gives the empty list. The call returns a list exactly when the entries
    translate one after the other, the output following the input entry by
    entry: [""] for a blank entry, the result of [translate] for any other.
    A returned list has the length of the input, [""] at the place of each
    blank entry, and one prompt was sent per entry that is not blank. A
    list of blank entries gives a list of empty strings and changes
    nothing. *)
Theorem translate_list_agentic in_loop self text_list w :
  _fallback self = None ->
  translate_list in_loop self [] w = (Ok [], self, w)
  /\ (forall out self' w',
        translate_list in_loop self text_list w = (Ok out, self', w')
        <-> translates in_loop self w text_list out self' w')
  /\ (forall out self' w',
        translate_list in_loop self text_list w = (Ok out, self', w') ->
        length out = length text_list
        /\ (forall (i : nat) text,
              text_list !! i = Some text -> blank text -> out !! i = Some "")
        /\ length (sdk_prompts w') =
             (length (sdk_prompts w) + length (non_blank text_list))%nat)
  /\ (Forall blank text_list ->
      translate_list in_loop self text_list w =
        (Ok (replicate (length text_list) ""), self, w)).
Proof.
  intros Hfb.
  assert (forall out self' w',
             translate_list in_loop self text_list w = (Ok out, self', w')
             <-> translates in_loop self w text_list out self' w') as Hspec.
  { intros out self' w'. rewrite translate_list_no_fallback by done.
    rewrite translate_list_loop_translates. split.
    - by intros (tail & -> & Htr).
    - intros Htr. by exists out. }
  split; [|split; [|split]].
  - by rewrite translate_list_no_fallback.
  - exact Hspec.
  - intros out self' w' Hrun. apply Hspec in Hrun. split; [|split].
    + by eapply translates_length.
    + by eapply translates_blank_lookup.
    + by eapply translates_prompts.
  - intros Hblank. apply Hspec. by apply translates_all_blank.
Qed.

End Translate.

Lemma agentic_translate_environment_witness :
  let caller := @Build_World Doubles.outside []
                  {[ "ANTHROPIC_MODEL" := "claude-opus"; "HOME" := "/root" ]} [] 0%nat in
  let env' :=
    environ (translate (H0 := Doubles.services true) false
               Doubles.agentic_self "hello" caller).2 in
  env' !! "ANTHROPIC_MODEL" = Some "claude-opus"
  /\ env' !! "HOME" = Some "/root"
  /\ env' !! "ANTHROPIC_BASE_URL" = Some default_base_url.
Proof.
  intros caller env'.
  destruct (agentic_translate_environment (H0 := Doubles.services true) false
              Doubles.agentic_self "hello" caller eq_refl)
    as (Hkeep & Hframe & _ & _ & Hset).
  split; [|split].
  - apply Hkeep; [reflexivity | discriminate].
  - apply Hkeep; [reflexivity | discriminate].
  - subst env'. rewrite Hset by reflexivity. reflexivity.
Defined.

(** C8. An agentic [translate] called with [ANTHROPIC_MODEL] set to the
    empty string in the caller's environment: the variable, although set,
    is overwritten with the default [glm-4.5], where the comment on the
    assignments says that they are made if the variables are not already
    set. *)
Theorem translate_overwrites_empty_variable :
  let caller := @Build_World Doubles.outside []
                  {[ "ANTHROPIC_MODEL" := "" ]} [] 0%nat in
  let env' :=
    environ (translate (H0 := Doubles.services true) false
               Doubles.agentic_self "hello" caller).2 in
  environ caller !! "ANTHROPIC_MODEL" = Some ""
  /\ env' !! "ANTHROPIC_MODEL" = Some "glm-4.5"
  /\ env' !! "ANTHROPIC_MODEL" <> environ caller !! "ANTHROPIC_MODEL".
Proof.
  intros caller env'. split; [|split].
  - reflexivity.
  - vm_compute. reflexivity.
  - vm_compute. discriminate.
Qed.

Lemma translate_list_agentic_witness :
  exists out self' w',
    translate_list (H0 := Doubles.services true) false Doubles.agentic_self
      ["hello"; "  "; ""] Doubles.world0 = (Ok out, self', w')
    /\ length out = 3%nat
    /\ out !! 1%nat = Some ""
    /\ out !! 2%nat = Some ""
    /\ length (sdk_prompts w') = 1%nat.
Proof.
  destruct (translate_list_agentic (H0 := Doubles.services true) false
              Doubles.agentic_self ["hello"; "  "; ""] Doubles.world0 eq_refl)
    as (_ & _ & Hout & _).
  destruct (translate_list (H0 := Doubles.services true) false
              Doubles.agentic_self ["hello"; "  "; ""] Doubles.world0)
    as [[[out|e] self'] w'] eqn:Hrun; [|by vm_compute in Hrun].
  destruct (Hout out self' w' eq_refl) as (Hlen & Hblank & Hprompts).
  exists out, self', w'. repeat split.
  - exact Hlen.
  - apply (Hblank 1%nat "  "); reflexivity.
  - apply (Hblank 2%nat ""); reflexivity.
  - rewrite Hprompts. reflexivity.
Defined.

End Agentic.

(** ** The DeepSeek adapter *)

Module DeepSeekFacts.
Import DeepSeek.

(** A cycle over one item yields that item for ever. *)
Lemma cycle_take_singleton {A} (x : A) (n : nat) :
  cycle_take n (cycle_of [x]) = replicate n x.
Proof.
  induction n as [|n IH]; [reflexivity|].
  change (cycle_take (S n) (cycle_of [x])) with (x :: cycle_take n (cycle_of [x])).
  by rewrite IH.
Qed.

Section Adapter.

Context `{ChatGPTAPI}.

Implicit Types (a : InitArgs) (w : World) (self : DeepSeekTranslator).

Lemma deepseek_init_ok_inv a w self w' :
  __init__ a w = (Ok self, w') ->
  ChatGPTAPI_init (parent_args a) w = (Ok (attrs self), w')
  /\ model_list self = cycle_of DEFAULT_MODEL_LIST.
Proof.
  unfold __init__.
  destruct (ChatGPTAPI_init (parent_args a) w) as [[parent|e] w1]; [|done].
  by intros [= <- <-].
Qed.

(** C9, amended. [__init__] hands to the parent's constructor the default
    endpoint [https://api.deepseek.com] when [api_base] is [None] or empty,
    and a non-empty [api_base] unchanged; it returns an instance exactly
    when the parent's constructor succeeds on these arguments; the model
    cycle of the instance is over [deepseek-chat] alone; [set_model_list]
    hands a non-empty list unchanged to the parent's [set_model_list]; and,
    the parent installing a cycle over the list it is given, a custom
    non-empty list replaces the default cycle: the instance then cycles
    over the models of that list, and no longer over [deepseek-chat] unless
    the list names it. *)
Theorem deepseek_configuration a w :
  (truthy_opt_str (arg_api_base a) = false ->
     p_api_base (parent_args a) = "https://api.deepseek.com")
  /\ (forall url,
        arg_api_base a = Some url -> url <> "" ->
        p_api_base (parent_args a) = url)
  /\ (forall parent w',
        ChatGPTAPI_init (parent_args a) w = (Ok parent, w') ->
        exists self, __init__ a w = (Ok self, w') /\ attrs self = parent)
  /\ (forall self w',
        __init__ a w = (Ok self, w') ->
        ChatGPTAPI_init (parent_args a) w = (Ok (attrs self), w')
        /\ cycle_items (model_list self) = ["deepseek-chat"]
        /\ forall n, cycle_take n (model_list self) = replicate n "deepseek-chat")
  /\ (forall l self w0,
        l <> [] ->
        set_model_list (Some l) self w0 = ChatGPTAPI_set_model_list l self w0)
  /\ (installs_cycle ->
      forall l self w0 self' w',
        l <> [] ->
        set_model_list (Some l) self w0 = (Ok tt, self', w') ->
        (forall model, model ∈ cycle_items (model_list self') <-> model ∈ l)
        /\ ("deepseek-chat" ∉ l ->
            "deepseek-chat" ∉ cycle_items (model_list self'))).
Proof.
  split; [|split; [|split; [|split; [|split]]]].
  - unfold parent_args, or_str. cbn.
    destruct (arg_api_base a) as [url|]; [|done]. cbn. by intros ->.
  - intros url Hgiven Hurl. unfold parent_args, or_str. cbn.
    rewrite Hgiven. by destruct url.
  - intros parent w' Hparent. unfold __init__. rewrite Hparent. eauto.
  - intros self w' Hinit.
    destruct (deepseek_init_ok_inv a w self w' Hinit) as [Hparent Hcycle].
    split; [done|]. rewrite Hcycle. split; [reflexivity|].
    intros n. apply cycle_take_singleton.
  - intros l self w0 Hl. unfold set_model_list. by destruct l.
  - intros Hparent l self w0 self' w' Hl Hset.
    assert (ChatGPTAPI_set_model_list l self w0 = (Ok tt, self', w')) as Hcall.
    { rewrite <- Hset. unfold set_model_list. by destruct l. }
    pose proof (Hparent l self w0 self' w' Hcall) as Hmodels.
    split; [exact Hmodels|]. intros Hnot Hin. by apply Hnot, Hmodels.
Qed.

(** C10. [set_model_list] called with [None] or with an empty list calls
    the parent's [set_model_list] with the default list
    [["deepseek-chat"]]; and whatever the argument, the list that reaches
    the parent is not empty. *)
Theorem set_model_list_falsy ml self w :
  (truthy_opt_list ml = false ->
     set_model_list ml self w = ChatGPTAPI_set_model_list ["deepseek-chat"] self w)
  /\ (exists l, l <> []
               /\ set_model_list ml self w = ChatGPTAPI_set_model_list l self w).
Proof.
  split.
  - intros Hml. unfold set_model_list. destruct ml as [[|m l]|]; done.
  - unfold set_model_list. destruct ml as [[|m l]|]; cbn.
    + by exists DEFAULT_MODEL_LIST.
    + by exists (m :: l).
    + by exists DEFAULT_MODEL_LIST.
Qed.

End Adapter.

(** The parent of the doubles keeps the contract. *)
Lemma double_parent_installs_cycle :
  installs_cycle (H0 := DeepSeekDoubles.parent).
Proof.
  intros l self w self' w' Hcall model.
  injection Hcall as <- _. reflexivity.
Qed.

Lemma deepseek_configuration_witness :
  p_api_base (parent_args (DeepSeekDoubles.args (Some "http://localhost:8000")))
    = "http://localhost:8000"
  /\ (set_model_list (H0 := DeepSeekDoubles.parent) (Some ["deepseek-reasoner"])
        DeepSeekDoubles.deepseek_self tt).1.2
     = @Build_DeepSeekTranslator DeepSeekDoubles.outside
         ("sk-test", DEFAULT_API_BASE) (cycle_of ["deepseek-reasoner"])
  /\ "deepseek-chat" ∉
       cycle_items
         (model_list
            (set_model_list (H0 := DeepSeekDoubles.parent)
               (Some ["deepseek-reasoner"]) DeepSeekDoubles.deepseek_self tt).1.2).
Proof.
  destruct (deepseek_configuration (H0 := DeepSeekDoubles.parent)
              (DeepSeekDoubles.args (Some "http://localhost:8000")) tt)
    as (_ & Hbase & _ & _ & Hlist & Hreplace).
  split; [|split].
  - apply Hbase; [reflexivity | discriminate].
  - rewrite Hlist by discriminate. reflexivity.
  - eapply (Hreplace double_parent_installs_cycle ["deepseek-reasoner"]
              DeepSeekDoubles.deepseek_self tt).
    + discriminate.
    + reflexivity.
    + intros Hin. apply list_elem_of_In in Hin. cbn in Hin.
      destruct Hin as [Hin|[]]. discriminate.
Defined.

(** C9 as stated fails on an [api_base] given as the empty string: the
    parent receives the default endpoint, not the string given. *)
Lemma api_base_claim_counterexample :
  let a := DeepSeekDoubles.args (Some "") in
  arg_api_base a = Some ""
  /\ p_api_base (parent_args a) = "https://api.deepseek.com"
  /\ p_api_base (parent_args a) <> "".
Proof. repeat split. discriminate. Qed.

Lemma set_model_list_falsy_witness :
  (set_model_list (H0 := DeepSeekDoubles.parent) (Some [])
     DeepSeekDoubles.deepseek_self tt).1.2
  = @Build_DeepSeekTranslator DeepSeekDoubles.outside
      ("sk-test", DEFAULT_API_BASE) (cycle_of ["deepseek-chat"]).
Proof.
  destruct (set_model_list_falsy (H0 := DeepSeekDoubles.parent) (Some [])
              DeepSeekDoubles.deepseek_self tt) as [Hdefault _].
  rewrite Hdefault by reflexivity. reflexivity.
Defined.

End DeepSeekFacts.

(** ** The bridge, in full *)

Module BridgeOutcome.
Import ClaudeCode.

(** X1. The bridge awaits the coroutine once: the process state it leaves
    is the one the coroutine leaves. It returns the coroutine's value, and
    raises the coroutine's exception, except for an instance of
    [RuntimeError] raised while an event loop is running in the caller's
    thread, which comes out as the [RuntimeError] of [asyncio.run]. *)
Theorem sync_wrapper_outcome `{Outside} {A} (in_loop : bool) (coro : Coro A)
    (w : World) :
  _sync_wrapper in_loop coro w =
    (match (coro w).1 with
     | Ok v => Ok v
     | Raise e =>
         if in_loop && isinstance e "RuntimeError"
         then Raise (RuntimeError asyncio_run_message)
         else Raise e
     end,
     (coro w).2).
Proof.
  unfold _sync_wrapper, get_running_loop, run_in_worker_thread, asyncio_run.
  destruct in_loop; destruct (coro w) as [[v|e] w']; cbn; try reflexivity.
  destruct (isinstance e "RuntimeError"); reflexivity.
Qed.

End BridgeOutcome.

(** ** Whitespace *)

Module Trim.
Import ClaudeCode Observe.

Lemma lstrip_first (s : string) (c : ascii) :
  first_char (lstrip s) = Some c -> isspace c = false.
Proof.
  induction s as [|a s IH]; [done|]. cbn.
  destruct (isspace a) eqn:Ha; [exact IH|].
  cbn. by intros [= <-].
Qed.

Lemma lstrip_id (s : string) :
  (forall c, first_char s = Some c -> isspace c = false) -> lstrip s = s.
Proof.
  destruct s as [|a s]; [done|]. intros Hfirst. cbn.
  by rewrite (Hfirst a eq_refl).
Qed.

Lemma rstrip_cons (a : ascii) (r : string) :
  rstrip (String a r) =
    match rstrip r with
    | EmptyString => if isspace a then EmptyString else String a EmptyString
    | String b r' => String a (String b r')
    end.
Proof. reflexivity. Qed.

Lemma rstrip_first (s : string) (c : ascii) :
  first_char (rstrip s) = Some c -> first_char s = Some c.
Proof.
  destruct s as [|a s]; [done|]. rewrite rstrip_cons.
  destruct (rstrip s); [destruct (isspace a)|]; done.
Qed.

Lemma rstrip_last (s : string) (c : ascii) :
  last_char (rstrip s) = Some c -> isspace c = false.
Proof.
  induction s as [|a s IH]; [done|]. rewrite rstrip_cons.
  destruct (rstrip s) as [|b r'] eqn:Hr.
  - destruct (isspace a) eqn:Ha; [done|]. cbn. by intros [= <-].
  - exact IH.
Qed.

Lemma rstrip_idempotent (s : string) : rstrip (rstrip s) = rstrip s.
Proof.
  induction s as [|a s IH]; [done|]. rewrite rstrip_cons.
  destruct (rstrip s) as [|b r'] eqn:Hr.
  - destruct (isspace a) eqn:Ha; [done|]. cbn. by rewrite Ha.
  - rewrite rstrip_cons, IH. done.
Qed.

Lemma strip_trimmed (s : string) : trimmed (strip s).
Proof.
  unfold strip. split.
  - intros c Hc. apply rstrip_first in Hc. by apply (lstrip_first s).
  - apply rstrip_last.
Qed.

Lemma strip_idempotent (s : string) : strip (strip s) = strip s.
Proof.
  unfold strip at 1. rewrite lstrip_id.
  - apply rstrip_idempotent.
  - apply strip_trimmed.
Qed.

(** A stripped string is blank only when it is empty. *)
Lemma strip_blank (s : string) : all_space (strip s) = true -> strip s = "".
Proof.
  intros Hsp. pose proof (Agentic.strip_truthy (strip s)) as Ht.
  rewrite strip_idempotent, Hsp in Ht. by destruct (strip s).
Qed.

End Trim.

(** ** One agentic call *)

Module AgenticRun.
Import ClaudeCode Observe.

Section Run.

Context `{Services}.

Implicit Types (self s : ClaudeCodeTranslator) (w : World) (text t : string).

(** What a coroutine that returns has done. *)
Lemma agentic_translate_ok_inv s text w t w' :
  _agentic_translate s text w = (Ok t, w') ->
  exists body options messages x,
    str_format (prompt_template s) text (language s) = Ok body
    /\ ClaudeCodeOptions (sdk_options s) = Ok options
    /\ query (prompt_prefix s +:+ body) options
         (configure_environment (environ w)) (ext w) = (Ok messages, x)
    /\ t = strip (response_text messages)
    /\ w' = {| console := console w;
               environ := configure_environment (environ w);
               sdk_prompts := sdk_prompts w ++ [prompt_prefix s +:+ body];
               ext := x |}.
Proof.
  unfold _agentic_translate.
  destruct (str_format _ _ _) as [body|e]; [|done].
  destruct (ClaudeCodeOptions _) as [options|e]; [|done].
  destruct (query _ _ _ _) as [[messages|e] x] eqn:Hq; [|done].
  intros [= <- <-]. by exists body, options, messages, x.
Qed.



(** What a call that returns has done. *)
Lemma translate_agentic_ok_inv in_loop s text w t s' w' :
  _fallback s = None ->
  translate in_loop s text w = (Ok t, s', w') ->
  exists w1,
    render_markup text = Ok tt
    /\ _agentic_translate s text (written text w) = (Ok t, w1)
    /\ s' = (if context_flag s then save_context s text t else s)
    /\ render_markup (colored t) = Ok tt
    /\ w' = written (colored t) w1.
Proof.
  intros Hfb. rewrite (Agentic.translate_agentic _ _ _ _ Hfb).
  destruct (render_markup text) as [[]|e]; [|done].
  destruct (_sync_wrapper _ _ _) as [[t0|e] w0] eqn:Hrun; [|done].
  destruct (render_markup (colored t0)) as [[]|e] eqn:Hcol; [|done].
  intros [= <- <- <-]. exists w0.
  apply Bridge.sync_wrapper_ok_inv in Hrun. by rewrite Hcol.
Qed.

(** What a call that raises has done: the first [print] failed; or the
    bridge raised; or the second [print] failed, the translation being
    already saved. *)
Lemma translate_agentic_raise_inv in_loop s text w e s' w' :
  _fallback s = None ->
  translate in_loop s text w = (Raise e, s', w') ->
  (render_markup text = Raise e /\ s' = s /\ w' = w)
  \/ (render_markup text = Ok tt /\ s' = s
      /\ _sync_wrapper in_loop (_agentic_translate s text) (written text w)
         = (Raise e, w'))
  \/ (exists t,
        render_markup text = Ok tt
        /\ _agentic_translate s text (written text w) = (Ok t, w')
        /\ render_markup (colored t) = Raise e
        /\ s' = (if context_flag s then save_context s text t else s)).
Proof.
  intros Hfb. rewrite (Agentic.translate_agentic _ _ _ _ Hfb).
  destruct (render_markup text) as [[]|e0].
  2: { intros [= <- <- <-]. by left. }
  destruct (_sync_wrapper _ _ _) as [[t0|e0] w0] eqn:Hrun.
  - destruct (render_markup (colored t0)) as [[]|e1] eqn:Hcol; [done|].
    intros [= <- <- <-]. right. right. exists t0.
    apply Bridge.sync_wrapper_ok_inv in Hrun. by rewrite Hcol.
  - intros [= <- <- <-]. right. by left.
Qed.

(** X2. The text an agentic [translate] returns is stripped: it neither
    starts nor ends with whitespace, stripping it again changes nothing,
    and it is blank only when it is empty. *)
Theorem translate_result_stripped in_loop self text w t self' w' :
  _fallback self = None ->
  translate in_loop self text w = (Ok t, self', w') ->
  trimmed t /\ strip t = t /\ (blank t -> t = "").
Proof.
  intros Hfb Hrun.
  destruct (translate_agentic_ok_inv _ _ _ _ _ _ _ Hfb Hrun) as (w1 & _ & Hco & _).
  destruct (agentic_translate_ok_inv _ _ _ _ _ Hco)
    as (body & options & messages & x & _ & _ & _ & -> & _).
  split; [|split].
  - apply Trim.strip_trimmed.
  - apply Trim.strip_idempotent.
  - apply Trim.strip_blank.
Qed.


(** X12. An agentic [translate] that returns has handed the SDK one prompt:
    the system line when the system message is not empty, then the context
    block and a line feed when the context is not empty, then the filled
    template. The context is the one saved before the call. *)
Theorem translate_prompt in_loop self text w t self' w' :
  _fallback self = None ->
  translate in_loop self text w = (Ok t, self', w') ->
  exists body,
    str_format (prompt_template self) text (language self) = Ok body
    /\ sdk_prompts w' =
         sdk_prompts w ++
           [ (if truthy_str (prompt_sys_msg self)
              then "System: " +:+ prompt_sys_msg self +:+ nl +:+ nl else "")
             +:+ (if truthy_str (create_context_messages self)
                  then create_context_messages self +:+ nl else "")
             +:+ body ].
Proof.
  intros Hfb Hrun.
  destruct (translate_agentic_ok_inv _ _ _ _ _ _ _ Hfb Hrun)
    as (w1 & _ & Hco & _ & _ & ->).
  destruct (agentic_translate_ok_inv _ _ _ _ _ Hco)
    as (body & options & messages & x & Hbody & _ & _ & _ & ->).
  exists body. split; [done|]. cbn. do 2 f_equal.
  unfold prompt_prefix.
  destruct (truthy_str (create_context_messages self)).
  - by rewrite append_assoc.
  - reflexivity.
Qed.

End Run.

Lemma translate_result_stripped_witness :
  exists t self' w',
    translate (H0 := Doubles.services true) false Doubles.agentic_self "hello"
      Doubles.world0 = (Ok t, self', w')
    /\ trimmed t /\ strip t = t.
Proof.
  destruct (translate (H0 := Doubles.services true) false Doubles.agentic_self
              "hello" Doubles.world0) as [[[t|e] self'] w'] eqn:Hrun;
    [|by vm_compute in Hrun].
  exists t, self', w'. split; [reflexivity|].
  destruct (translate_result_stripped (H0 := Doubles.services true) false
              Doubles.agentic_self "hello" Doubles.world0 t self' w' eq_refl Hrun)
    as (Htrim & Hstrip & _).
  split; [exact Htrim | exact Hstrip].
Defined.


Lemma translate_prompt_witness :
  exists t self' w',
    translate (H0 := Doubles.services true) false Doubles.agentic_self "hello"
      Doubles.world0 = (Ok t, self', w')
    /\ sdk_prompts w' =
         ["System: " +:+ default_prompt_sys_msg +:+ nl +:+ nl +:+ "fr: hello"].
Proof.
  destruct (translate (H0 := Doubles.services true) false Doubles.agentic_self
              "hello" Doubles.world0) as [[[t|e] self'] w'] eqn:Hrun;
    [|by vm_compute in Hrun].
  exists t, self', w'. split; [reflexivity|].
  destruct (translate_prompt (H0 := Doubles.services true) false
              Doubles.agentic_self "hello" Doubles.world0 t self' w' eq_refl Hrun)
    as (body & Hbody & ->).
  injection Hbody as <-. reflexivity.
Defined.

End AgenticRun.

(** ** Line feeds on the console *)

Module Squeeze.
Import ClaudeCode Observe.

Lemma short_runs_emit (run : nat) (c : ascii) (s : string) :
  Ascii.eqb c "010"%char = false ->
  short_newline_runs 0 (emit_newlines run +:+ String c s) = short_newline_runs 0 s.
Proof.
  intros Hc.
  destruct run as [|[|run]].
  - change (emit_newlines 0 +:+ String c s) with (String c s).
    cbn. by rewrite Hc.
  - change (emit_newlines 1 +:+ String c s)
      with (String "010"%char (String c s)).
    cbn. by rewrite Hc.
  - change (emit_newlines (S (S run)) +:+ String c s)
      with (String "010"%char (String "010"%char (String c s))).
    cbn. by rewrite Hc.
Qed.

Lemma squeeze_from_short (s : string) : forall run,
  short_newline_runs 0 (squeeze_newlines_from run s) = true.
Proof.
  induction s as [|c s IH]; intros run.
  - by destruct run as [|[|run]].
  - cbn [squeeze_newlines_from]. destruct (Ascii.eqb c "010"%char) eqn:Hc.
    + apply IH.
    + rewrite short_runs_emit by done. apply IH.
Qed.

Lemma emit_newlines_succ (run : nat) (s : string) :
  (run < 2)%nat ->
  emit_newlines (S run) +:+ s = emit_newlines run +:+ String "010"%char s.
Proof.
  intros Hrun. destruct run as [|[|run]]; [reflexivity..|lia].
Qed.

Lemma squeeze_from_id (s : string) : forall run,
  (run <= 2)%nat ->
  short_newline_runs run s = true ->
  squeeze_newlines_from run s = emit_newlines run +:+ s.
Proof.
  induction s as [|c s IH]; intros run Hrun Hshort.
  - cbn. by rewrite append_nil_r.
  - cbn [squeeze_newlines_from short_newline_runs] in *.
    destruct (Ascii.eqb c "010"%char) eqn:Hc.
    + apply Ascii.eqb_eq in Hc as ->.
      apply andb_true_iff in Hshort as [Hlt Hshort].
      apply Nat.ltb_lt in Hlt.
      rewrite IH by (done || lia). by apply emit_newlines_succ.
    + by rewrite (IH 0%nat) by (done || lia).
Qed.

(** X5. The translation echoed on the console never shows three line
    feeds in a row, and a text that has no such run is echoed as it is. *)
Theorem squeeze_newlines_short (s : string) :
  short_newline_runs 0 (squeeze_newlines s) = true
  /\ (short_newline_runs 0 s = true -> squeeze_newlines s = s).
Proof.
  split.
  - apply squeeze_from_short.
  - intros Hshort. unfold squeeze_newlines.
    by rewrite squeeze_from_id by (done || lia).
Qed.

Lemma squeeze_newlines_short_witness :
  squeeze_newlines ("a" +:+ nl +:+ nl +:+ "b") = "a" +:+ nl +:+ nl +:+ "b".
Proof.
  apply (squeeze_newlines_short ("a" +:+ nl +:+ nl +:+ "b")). reflexivity.
Defined.

End Squeeze.

(** ** The environment across calls *)

Module EnvironmentStable.
Import ClaudeCode.

Lemma configure_environment_truthy (env : gmap string string) :
  truthy_opt_str (configure_environment env !! "ANTHROPIC_BASE_URL") = true
  /\ truthy_opt_str (configure_environment env !! "ANTHROPIC_MODEL") = true.
Proof.
  rewrite !Agentic.configure_environment_lookup. cbn. split.
  - by destruct (truthy_opt_str (env !! "ANTHROPIC_BASE_URL")) eqn:Hb.
  - by destruct (truthy_opt_str (env !! "ANTHROPIC_MODEL")) eqn:Hm.
Qed.

Lemma configure_environment_fixed (env : gmap string string) :
  truthy_opt_str (env !! "ANTHROPIC_BASE_URL") = true ->
  truthy_opt_str (env !! "ANTHROPIC_MODEL") = true ->
  configure_environment env = env.
Proof.
  intros Hb Hm. unfold configure_environment, setenv_if_not.
  rewrite Hb. cbn [negb]. by rewrite Hm.
Qed.

(** X6. Configuring the environment a second time changes nothing: once
    an agentic call has configured it, both variables hold non-empty
    values, and no later agentic [translate] changes the environment. *)
Theorem environment_configured_once `{Services} in_loop
    (self : ClaudeCodeTranslator) (text : string) (w : World)
    (before : gmap string string) :
  _fallback self = None ->
  environ w = configure_environment before ->
  truthy_opt_str (environ w !! "ANTHROPIC_BASE_URL") = true
  /\ truthy_opt_str (environ w !! "ANTHROPIC_MODEL") = true
  /\ configure_environment (environ w) = environ w
  /\ environ (translate in_loop self text w).2 = environ w.
Proof.
  intros Hfb Henv.
  destruct (configure_environment_truthy before) as [Hb Hm].
  rewrite <- Henv in Hb, Hm.
  pose proof (configure_environment_fixed _ Hb Hm) as Hfixed.
  repeat split; try done.
  rewrite (Agentic.translate_agentic_environ _ _ _ _ Hfb).
  rewrite Agentic.agentic_translate_environ.
  change (environ (written text w)) with (environ w).
  rewrite Hfixed. by repeat case_match.
Qed.

Lemma environment_configured_once_witness :
  let first :=
    (translate (H0 := Doubles.services true) false Doubles.agentic_self "one"
       Doubles.world0).2 in
  environ (translate (H0 := Doubles.services true) true Doubles.agentic_self
             "two" first).2 = environ first.
Proof.
  intros first.
  apply (environment_configured_once (H0 := Doubles.services true) true
           Doubles.agentic_self "two" first (environ Doubles.world0)).
  - reflexivity.
  - reflexivity.
Defined.

End EnvironmentStable.

(** ** Lists of entries *)

Module ListRun.
Import ClaudeCode Observe.

Section Run.

Context `{Services}.

Implicit Types (self s : ClaudeCodeTranslator) (w : World)
  (text_list out : list string) (h : list (string * string)).

Lemma recorded_blank text rest out :
  blank text -> recorded (text :: rest) ("" :: out) = recorded rest out.
Proof.
  intros Hb. unfold recorded. cbn [zip zip_with].
  rewrite filter_cons_False; [done|]. cbn. unfold blank in Hb.
  rewrite Hb. cbn. auto.
Qed.

Lemma recorded_entry text t rest out :
  ~ blank text -> recorded (text :: rest) (t :: out) = (text, t) :: recorded rest out.
Proof.
  intros Hnb. unfold recorded. cbn [zip zip_with].
  rewrite filter_cons_True; [done|]. cbn. unfold blank in Hnb.
  by destruct (all_space text).
Qed.

(** With context disabled a run leaves both lists as they are. *)
Lemma translates_context_disabled in_loop s w text_list out s' w' :
  translates in_loop s w text_list out s' w' ->
  _fallback s = None ->
  context_flag s = false ->
  context_list s' = context_list s
  /\ context_translated_list s' = context_translated_list s.
Proof.
  induction 1 as [| ? ? ? ? ? ? ? Hb Htr IH
                  | s0 w0 text t s1 w1 rest out0 s2 w2 Hnb Ht Htr IH];
    intros Hfb Hf; [done | by apply IH |].
  destruct (AgenticRun.translate_agentic_ok_inv _ _ _ _ _ _ _ Hfb Ht)
    as (wc & _ & _ & Hs1 & _).
  rewrite Hf in Hs1. subst s1. by apply IH.
Qed.

(** With context enabled the window moves over the pairs of the entries
    that are not blank. *)
Lemma translates_context_window in_loop s w text_list out s' w' :
  translates in_loop s w text_list out s' w' ->
  _fallback s = None ->
  context_flag s = true ->
  0 <= context_paragraph_limit s ->
  forall h,
    context_list s = (retained (context_paragraph_limit s) h).*1 ->
    context_translated_list s = (retained (context_paragraph_limit s) h).*2 ->
    context_list s'
      = (retained (context_paragraph_limit s) (h ++ recorded text_list out)).*1
    /\ context_translated_list s'
      = (retained (context_paragraph_limit s) (h ++ recorded text_list out)).*2.
Proof.
  induction 1 as [| s0 w0 text rest out0 s2 w2 Hb Htr IH
                  | s0 w0 text t s1 w1 rest out0 s2 w2 Hnb Ht Htr IH];
    intros Hfb Hf Hcap h Hl Htl.
  - by rewrite app_nil_r.
  - rewrite recorded_blank by done. by apply IH.
  - rewrite recorded_entry by done.
    destruct (AgenticRun.translate_agentic_ok_inv _ _ _ _ _ _ _ Hfb Ht)
      as (wc & _ & _ & Hs1 & _).
    rewrite Hf in Hs1. subst s1.
    destruct (ContextBuffer.save_context_window s0 h (text, t) Hf Hcap Hl Htl)
      as [Hl1 Htl1].
    cbn [fst snd] in Hl1, Htl1.
    specialize (IH ltac:(by rewrite ContextBuffer.save_context_fallback)
                   ltac:(by rewrite ContextBuffer.save_context_flag)).
    rewrite ContextBuffer.save_context_limit in IH.
    specialize (IH Hcap (h ++ [(text, t)]) Hl1 Htl1).
    by rewrite <- app_assoc in IH.
Qed.

(** X3. After [translate_list] has returned on an agentic adapter: with
    context disabled the two context lists are as before; with context
    enabled, a cap [N >= 0] and a buffer that was empty, the lists hold the
    last [N] pairs (entry, translation) of the entries that are not blank,
    in the order of the list. Blank entries are never recorded. *)
Theorem translate_list_records_context in_loop self text_list w out self' w' :
  _fallback self = None ->
  translate_list in_loop self text_list w = (Ok out, self', w') ->
  (context_flag self = false ->
     context_list self' = context_list self
     /\ context_translated_list self' = context_translated_list self)
  /\ (context_flag self = true -> fresh self ->
      0 <= context_paragraph_limit self ->
      context_list self'
        = (retained (context_paragraph_limit self) (recorded text_list out)).*1
      /\ context_translated_list self'
        = (retained (context_paragraph_limit self) (recorded text_list out)).*2).
Proof.
  intros Hfb Hrun.
  rewrite Agentic.translate_list_no_fallback in Hrun by done.
  apply Agentic.translate_list_loop_translates in Hrun as (tail & Hout & Htr).
  cbn in Hout. subst tail. split.
  - intros Hf. by eapply translates_context_disabled.
  - intros Hf [Hl Htl] Hcap.
    apply (translates_context_window _ _ _ _ _ _ _ Htr Hfb Hf Hcap []).
    + by rewrite Hl.
    + by rewrite Htl.
Qed.

(** The loop raises exactly when, the entries before having been
    translated, [translate] raises on an entry that is not blank. *)
Lemma translate_list_loop_raises in_loop text_list :
  forall s acc w e s' w',
    translate_list_loop in_loop s text_list acc w = (Raise e, s', w')
    <-> exists done_ text rest out s1 w1,
          text_list = done_ ++ text :: rest
          /\ translates in_loop s w done_ out s1 w1
          /\ ~ blank text
          /\ translate in_loop s1 text w1 = (Raise e, s', w').
Proof.
  induction text_list as [|text0 rest0 IH]; intros s acc w e s' w'.
  - cbn. split; [done|].
    intros (done_ & text & rest & _ & _ & _ & Hsplit & _).
    by destruct done_.
  - cbn [translate_list_loop]. rewrite Agentic.strip_truthy.
    destruct (all_space text0) eqn:Hsp; cbn [negb].
    + rewrite IH. split.
      * intros (done_ & text & rest & out & s1 & w1 & -> & Htr & Hnb & Hraise).
        exists (text0 :: done_), text, rest, ("" :: out), s1, w1.
        repeat split; try done. by constructor.
      * intros (done_ & text & rest & out & s1 & w1 & Hsplit & Htr & Hnb & Hraise).
        destruct done_ as [|d done_]; simplify_eq/=.
        { unfold blank in Hnb. congruence. }
        inversion Htr; subst.
        -- do 6 eexists. split; [reflexivity|split; [eassumption|split; [assumption|eassumption]]].
        -- unfold blank in *. congruence.
    + destruct (translate in_loop s text0 w) as [[[t|e0] sa] wa] eqn:Htext.
      * rewrite IH. split.
        -- intros (done_ & text & rest & out & s1 & w1 & -> & Htr & Hnb & Hraise).
           exists (text0 :: done_), text, rest, (t :: out), s1, w1.
           repeat split; try done.
           eapply translates_entry; [|done..]. unfold blank. congruence.
        -- intros (done_ & text & rest & out & s1 & w1 & Hsplit & Htr & Hnb & Hraise).
           destruct done_ as [|d done_]; simplify_eq/=.
           { inversion Htr; subst. congruence. }
           inversion Htr; subst.
           ++ unfold blank in *. congruence.
           ++ match goal with
              | Ht : translate _ _ _ _ = (Ok _, _, _) |- _ =>
                  rewrite Htext in Ht; injection Ht as <- <- <-
              end.
              do 6 eexists.
              split; [reflexivity|split; [eassumption|split; [assumption|eassumption]]].
      * split.
        -- intros [= <- <- <-].
           exists [], text0, rest0, [], s, w.
           repeat split; try done; [constructor|]. unfold blank. congruence.
        -- intros (done_ & text & rest & out & s1 & w1 & Hsplit & Htr & Hnb & Hraise).
           destruct done_ as [|d done_]; simplify_eq/=.
           ++ inversion Htr; subst. congruence.
           ++ inversion Htr; subst; [unfold blank in *|]; congruence.
Qed.

(** X11. [translate_list] on an agentic adapter raises exactly when
    [translate] raises on an entry that is not blank, the entries before it
    having been translated: the error, the instance and the process state
    are those of that call, and no later entry is looked at. *)
Theorem translate_list_raises in_loop self text_list w e self' w' :
  _fallback self = None ->
  translate_list in_loop self text_list w = (Raise e, self', w')
  <-> exists done_ text rest out s1 w1,
        text_list = done_ ++ text :: rest
        /\ translates in_loop self w done_ out s1 w1
        /\ ~ blank text
        /\ translate in_loop s1 text w1 = (Raise e, self', w').
Proof.
  intros Hfb. rewrite Agentic.translate_list_no_fallback by done.
  apply translate_list_loop_raises.
Qed.

(** X10. [translate_list] on an adapter with a fallback. When the
    fallback class has a [translate_list], the call is the fallback's, with
    the whole list, blank entries included. When it has none, the entries
    go through [translate] one by one: a returned list has the length of the
    input and [""] at the place of each blank entry, and a list of blank
    entries gives empty strings without any call to the fallback. *)
Theorem translate_list_fallback in_loop self fb text_list w :
  _fallback self = Some fb ->
  (forall batch, Claude_translate_list = Some batch ->
     translate_list in_loop self text_list w =
       (let '(r, fb', w') := batch fb text_list w in (r, set_fallback self fb', w')))
  /\ (Claude_translate_list = None ->
      (forall out self' w',
         translate_list in_loop self text_list w = (Ok out, self', w') ->
         translates in_loop self w text_list out self' w'
         /\ length out = length text_list
         /\ (forall (i : nat) text,
               text_list !! i = Some text -> blank text -> out !! i = Some ""))
      /\ (Forall blank text_list ->
          translate_list in_loop self text_list w =
            (Ok (replicate (length text_list) ""), self, w))).
Proof.
  intros Hfb. split.
  - intros batch Hbatch. unfold translate_list. by rewrite Hfb, Hbatch.
  - intros Hnone.
    assert (translate_list in_loop self text_list w
            = translate_list_loop in_loop self text_list [] w) as Hloop.
    { unfold translate_list. by rewrite Hfb, Hnone. }
    split.
    + intros out self' w' Hrun. rewrite Hloop in Hrun.
      apply Agentic.translate_list_loop_translates in Hrun as (tail & Hout & Htr).
      cbn in Hout. subst tail. split; [done|]. split.
      * by eapply Agentic.translates_length.
      * by eapply Agentic.translates_blank_lookup.
    + intros Hblank. rewrite Hloop.
      apply Agentic.translate_list_loop_translates.
      exists (replicate (length text_list) ""). split; [done|].
      by apply Agentic.translates_all_blank.
Qed.

End Run.

Lemma translate_list_records_context_witness :
  exists out self' w',
    translate_list (H0 := Doubles.services true) false Doubles.agentic_self
      ["a"; " "; "b"; "c"] Doubles.world0 = (Ok out, self', w')
    /\ context_list self' = ["b"; "c"].
Proof.
  destruct (translate_list (H0 := Doubles.services true) false
              Doubles.agentic_self ["a"; " "; "b"; "c"] Doubles.world0)
    as [[[out|e] self'] w'] eqn:Hrun; [|by vm_compute in Hrun].
  exists out, self', w'. split; [reflexivity|].
  destruct (translate_list_records_context (H0 := Doubles.services true) false
              Doubles.agentic_self ["a"; " "; "b"; "c"] Doubles.world0
              out self' w' eq_refl Hrun) as [_ Hctx].
  destruct Hctx as [Hl _]; [reflexivity | split; reflexivity | vm_compute; discriminate |].
  rewrite Hl. vm_compute in Hrun. injection Hrun as <- _ _. reflexivity.
Defined.

Lemma translate_list_raises_witness :
  exists e self' w',
    translate_list (H0 := MoreDoubles.flaky_services) false Doubles.agentic_self
      ["a"; "b"; "c"] Doubles.world0 = (Raise e, self', w')
    /\ exists done_ text rest out s1 w1,
         ["a"; "b"; "c"] = done_ ++ text :: rest
         /\ translates (H0 := MoreDoubles.flaky_services) false
              Doubles.agentic_self Doubles.world0 done_ out s1 w1
         /\ ~ blank text
         /\ translate (H0 := MoreDoubles.flaky_services) false s1 text w1
            = (Raise e, self', w').
Proof.
  destruct (translate_list (H0 := MoreDoubles.flaky_services) false
              Doubles.agentic_self ["a"; "b"; "c"] Doubles.world0)
    as [[[out|e] self'] w'] eqn:Hrun; [by vm_compute in Hrun|].
  exists e, self', w'. split; [reflexivity|].
  by apply (translate_list_raises (H0 := MoreDoubles.flaky_services) false
              Doubles.agentic_self ["a"; "b"; "c"] Doubles.world0 e self' w' eq_refl).
Defined.

Lemma translate_list_fallback_witness :
  translate_list (H0 := MoreDoubles.batch_services) false Doubles.proxy_self
    ["a"; " "] Doubles.world0
  = (Ok ["<a>"; "< >"],
     set_fallback Doubles.proxy_self (["a"; " "] : @Claude Doubles.outside),
     Doubles.world0).
Proof.
  destruct (translate_list_fallback (H0 := MoreDoubles.batch_services) false
              Doubles.proxy_self ([] : @Claude Doubles.outside) ["a"; " "]
              Doubles.world0 eq_refl) as [Hbatch _].
  rewrite (Hbatch _ eq_refl). reflexivity.
Defined.

End ListRun.

(** ** A cap of zero *)

Module ZeroCap.
Import ClaudeCode.

Section Buffer.

Context `{Outside}.

Lemma save_context_zero_cap (s : ClaudeCodeTranslator) (text t_text : string) :
  fresh s -> context_paragraph_limit s <= 0 ->
  fresh (save_context s text t_text).
Proof.
  intros [Hl Ht] Hcap. unfold save_context, fresh.
  destruct (context_flag s); cbn [negb]; [|done].
  rewrite Hl, Ht. cbn [app length].
  destruct (Z.ltb_spec (context_paragraph_limit s) (Z.of_nat 1)); [done|lia].
Qed.

(** X14. With a cap of zero (or below) the buffer stays empty whatever
    is saved, context enabled or not, so that no context is ever rendered. *)
Theorem zero_cap_keeps_buffer_empty (self : ClaudeCodeTranslator)
    (calls : list (string * string)) :
  fresh self ->
  context_paragraph_limit self <= 0 ->
  fresh (save_context_all self calls)
  /\ create_context_messages (save_context_all self calls) = "".
Proof.
  intros Hfresh Hcap.
  assert (fresh (save_context_all self calls)) as Hafter.
  { revert self Hfresh Hcap.
    induction calls as [|p calls IH]; intros self Hfresh Hcap; [done|].
    rewrite ContextBuffer.save_context_all_cons. apply IH.
    - by apply save_context_zero_cap.
    - by rewrite ContextBuffer.save_context_limit. }
  split; [done|].
  apply ContextBuffer.create_context_messages_empty. right. apply Hafter.
Qed.

End Buffer.

Lemma zero_cap_keeps_buffer_empty_witness :
  let self :=
    Doubles.built (__init__ (H0 := Doubles.services true)
                     (Doubles.args None true true 0) Doubles.world0) in
  create_context_messages (save_context_all self [("a", "A"); ("b", "B")]) = "".
Proof.
  intros self.
  apply (zero_cap_keeps_buffer_empty self [("a", "A"); ("b", "B")]).
  - split; reflexivity.
  - vm_compute. discriminate.
Defined.

End ZeroCap.

(** ** The option mapping and the model *)

Module SdkOptions.
Import ClaudeCode ModelChoice.

Lemma merge_sdk_options_user (user : gmap string opt_value) (k : string)
    (v : opt_value) :
  user !! k = Some v -> merge_sdk_options user !! k = Some v.
Proof.
  intros Hk. unfold merge_sdk_options.
  assert ((user ∪ the_default_agentic_options) !! k = Some v) as Hm.
  { apply lookup_union_Some_raw. by left. }
  destruct ((user ∪ the_default_agentic_options) !! "model") eqn:Hmodel; [done|].
  destruct (decide (k = "model")) as [->|Hne]; [congruence|].
  by rewrite lookup_insert_ne.
Qed.

Lemma merge_sdk_options_default (user : gmap string opt_value) (k : string) :
  user !! k = None ->
  merge_sdk_options user !! k =
    (<["model" := OStr "glm-4.5"]> the_default_agentic_options) !! k.
Proof.
  intros Hk. unfold merge_sdk_options.
  assert ((user ∪ the_default_agentic_options) !! k
          = the_default_agentic_options !! k) as Hm.
  { rewrite lookup_union_r; done. }
  destruct (decide (k = "model")) as [->|Hne].
  - rewrite Hm. change (the_default_agentic_options !! "model") with (@None opt_value).
    by rewrite !lookup_insert_eq.
  - destruct ((user ∪ the_default_agentic_options) !! "model").
    + by rewrite Hm, lookup_insert_ne.
    + by rewrite !lookup_insert_ne.
Qed.

Section Init.

Context `{Services}.

Lemma init_sdk_options (a : InitArgs) (w : World) self w' :
  __init__ a w = (Ok self, w') ->
  sdk_options self = merge_sdk_options (default empty (arg_agentic_options a))
  /\ truthy_str (prompt_template self) = true
  /\ truthy_str (prompt_sys_msg self) = true.
Proof.
  assert (forall x d, truthy_str d = true -> truthy_str (or_str x d) = true) as Hor.
  { intros [x|] d Hd; cbn; [|done]. by destruct (truthy_str x) eqn:Hx. }
  unfold __init__.
  destruct (arg_agentic a && negb HAS_CLAUDE_CODE_SDK); [done|].
  destruct (negb (arg_agentic a) || negb HAS_CLAUDE_CODE_SDK).
  - destruct (arg_key a) as [key|]; [|done].
    destruct (truthy_str key); [|done].
    destruct (Claude_init _ w) as [[fb|e] w1]; [|done].
    intros [= <- <-]. cbn. repeat split; by apply Hor.
  - intros [= <- <-]. cbn. repeat split; by apply Hor.
Qed.

(** X7. The option mapping of a constructed instance: an option given by
    the caller keeps the caller's value, and an option the caller did not
    give has its default, [max_turns = 1], [allowed_tools = ["Read"]],
    [permission_mode = "default"], [model = "glm-4.5"], and is absent
    otherwise. *)
Theorem sdk_options_merge (a : InitArgs) (w : World) self w' :
  __init__ a w = (Ok self, w') ->
  let user := default empty (arg_agentic_options a) in
  (forall k v, user !! k = Some v -> sdk_options self !! k = Some v)
  /\ (user !! "max_turns" = None -> sdk_options self !! "max_turns" = Some (OInt 1))
  /\ (user !! "allowed_tools" = None ->
      sdk_options self !! "allowed_tools" = Some (OList ["Read"]))
  /\ (user !! "permission_mode" = None ->
      sdk_options self !! "permission_mode" = Some (OStr "default"))
  /\ (user !! "model" = None -> sdk_options self !! "model" = Some (OStr "glm-4.5"))
  /\ (forall k,
        user !! k = None ->
        k <> "max_turns" -> k <> "allowed_tools" -> k <> "permission_mode" ->
        k <> "model" ->
        sdk_options self !! k = None).
Proof.
  intros Hinit user. destruct (init_sdk_options a w self w' Hinit) as (-> & _).
  fold user. split; [|split; [|split; [|split; [|split]]]].
  - intros k v. apply merge_sdk_options_user.
  - intros Hk. by rewrite merge_sdk_options_default.
  - intros Hk. by rewrite merge_sdk_options_default.
  - intros Hk. by rewrite merge_sdk_options_default.
  - intros Hk. by rewrite merge_sdk_options_default.
  - intros k Hk H1 H2 H3 H4. rewrite merge_sdk_options_default by done.
    unfold the_default_agentic_options. by rewrite !lookup_insert_ne.
Qed.

(** X8. With the SDK installed, construction in agentic mode succeeds
    whatever the key ([None] included), touches nothing, builds no
    fallback, keeps the key as given, and leaves neither the prompt
    template nor the system message empty. *)
Theorem agentic_construction (a : InitArgs) (w : World) :
  HAS_CLAUDE_CODE_SDK = true ->
  arg_agentic a = true ->
  exists self,
    __init__ a w = (Ok self, w)
    /\ _fallback self = None
    /\ api_key self = arg_key a
    /\ fresh self
    /\ truthy_str (prompt_template self) = true
    /\ truthy_str (prompt_sys_msg self) = true.
Proof.
  intros Hsdk Hag.
  destruct (__init__ a w) as [[self|e] w'] eqn:Hinit.
  - destruct (init_sdk_options a w self w' Hinit) as (_ & Ht & Hs).
    destruct (Construction.init_ok_inv a w self w' Hinit)
      as (Hfresh & _ & _ & _ & Hagentic).
    destruct (Hagentic Hag) as [Hfb ->].
    exists self. repeat split; try done; try apply Hfresh.
    revert Hinit. unfold __init__. rewrite Hsdk, Hag. cbn. by intros [= <-].
  - revert Hinit. unfold __init__. by rewrite Hsdk, Hag.
Qed.

Context `{!FallbackModel}.

Lemma sdk_model_fixed (name : string) : sdk_model (sdk_model name) = sdk_model name.
Proof.
  unfold sdk_model at 2 3.
  destruct (model_mapping !! name) as [m|] eqn:Hname; cbn;
    [|unfold sdk_model; by rewrite Hname].
  unfold model_mapping, dict_literal in Hname. cbn in Hname.
  repeat match type of Hname with
         | <[?k := _]> _ !! name = _ =>
             destruct (decide (k = name)) as [<-|?];
             [rewrite lookup_insert_eq in Hname; by injection Hname as <-
             |rewrite lookup_insert_ne in Hname by done]
         end.
  by rewrite lookup_empty in Hname.
Qed.

(** X9. [set_claude_model]. When the fallback class has the method, the
    call is the fallback's and the option mapping is untouched. Otherwise
    (no fallback, or a fallback class without the method) the call
    succeeds, touches nothing but the option [model], which becomes the SDK
    model of the name: the name itself when the table does not list it;
    the SDK model of a name is its own, so that a name and its SDK model
    select the same instance; and of two calls the later one decides. *)
Theorem set_claude_model_spec (self : ClaudeCodeTranslator) (name : string)
    (w : World) :
  (forall fb set_model,
     _fallback self = Some fb -> Claude_set_claude_model = Some set_model ->
     set_claude_model self name w =
       (let '(r, fb', w') := set_model fb name w in (r, set_fallback self fb', w')))
  /\ (_fallback self = None \/ Claude_set_claude_model = None ->
      let self' :=
        set_sdk_options self (<["model" := OStr (sdk_model name)]> (sdk_options self)) in
      set_claude_model self name w = (Ok tt, self', w)
      /\ sdk_options self' !! "model" = Some (OStr (sdk_model name))
      /\ (forall k, k <> "model" -> sdk_options self' !! k = sdk_options self !! k)
      /\ (model_mapping !! name = None -> sdk_model name = name)
      /\ set_claude_model self (sdk_model name) w = set_claude_model self name w
      /\ (forall later,
            set_claude_model self' later w = set_claude_model self later w)).
Proof.
  split.
  - intros fb set_model Hfb Hset. unfold set_claude_model. by rewrite Hfb, Hset.
  - intros Hplain self'.
    assert (forall s n,
               _fallback s = _fallback self ->
               set_claude_model s n w =
                 (Ok tt,
                  set_sdk_options s (<["model" := OStr (sdk_model n)]> (sdk_options s)),
                  w)) as Hset.
    { intros s n Hs. unfold set_claude_model. rewrite Hs.
      destruct Hplain as [-> | ->]; [done|]. by destruct (_fallback self). }
    split; [by apply Hset|]. split; [apply lookup_insert_eq|].
    split; [intros k Hk; by apply lookup_insert_ne|].
    split; [intros Hnone; unfold sdk_model; by rewrite Hnone|].
    split.
    + rewrite !Hset by done. by rewrite sdk_model_fixed.
    + intros later. rewrite !Hset by done. unfold self', set_sdk_options. cbn.
      by rewrite insert_insert_eq.
Qed.

End Init.

Lemma sdk_options_merge_witness :
  let a :=
    @Build_InitArgs Doubles.outside None "fr" None None None "1.0" false 5 true
      (Some {[ "max_turns" := OInt 3 ]}) tt in
  let self := Doubles.built (__init__ (H0 := Doubles.services true) a Doubles.world0) in
  sdk_options self !! "max_turns" = Some (OInt 3)
  /\ sdk_options self !! "model" = Some (OStr "glm-4.5").
Proof.
  intros a self.
  destruct (sdk_options_merge (H0 := Doubles.services true) a Doubles.world0
              self Doubles.world0 eq_refl) as (Huser & _ & _ & _ & Hmodel & _).
  split.
  - by apply Huser.
  - by apply Hmodel.
Defined.

Lemma agentic_construction_witness :
  exists self,
    __init__ (H0 := Doubles.services true) (Doubles.args None true false 5)
      Doubles.world0 = (Ok self, Doubles.world0)
    /\ _fallback self = None.
Proof.
  destruct (agentic_construction (H0 := Doubles.services true)
              (Doubles.args None true false 5) Doubles.world0 eq_refl eq_refl)
    as (self & Hinit & Hfb & _).
  exists self. split; [exact Hinit | exact Hfb].
Defined.

Lemma set_claude_model_spec_witness :
  (@set_claude_model Doubles.outside MoreDoubles.no_model_setter
     Doubles.agentic_self "glm" Doubles.world0).1.2
  = (@set_claude_model Doubles.outside MoreDoubles.no_model_setter
       Doubles.agentic_self "glm-4.5" Doubles.world0).1.2.
Proof.
  destruct (@set_claude_model_spec Doubles.outside MoreDoubles.no_model_setter
              Doubles.agentic_self "glm" Doubles.world0) as [_ Hplain].
  destruct (Hplain (or_introl eq_refl)) as (_ & _ & _ & _ & Hsame & _).
  by rewrite <- Hsame.
Defined.

End SdkOptions.

(** ** The streamed response *)

Module Response.
Import ClaudeCode Observe.

Lemma join_app (l1 l2 : list string) : join (l1 ++ l2) = join l1 +:+ join l2.
Proof.
  induction l1 as [|x l1 IH]; [reflexivity|].
  change (x +:+ join (l1 ++ l2) = (x +:+ join l1) +:+ join l2).
  by rewrite IH, append_assoc.
Qed.

Lemma fold_left_block_texts (blocks : list Block) : forall init,
  fold_left (fun acc b =>
               match block_text b with
               | Some t => acc +:+ t
               | None => acc
               end) blocks init
  = init +:+ join (omap block_text blocks).
Proof.
  induction blocks as [|b blocks IH]; intros init.
  - cbn. by rewrite append_nil_r.
  - cbn [fold_left omap list_omap]. rewrite IH.
    destruct (block_text b) as [t|]; [|done].
    change (join (t :: omap block_text blocks))
      with (t +:+ join (omap block_text blocks)).
    by rewrite append_assoc.
Qed.

Lemma message_text_join (m : Message) :
  message_text m = join (message_texts [m]).
Proof.
  unfold message_text, message_texts. cbn. rewrite app_nil_r.
  destruct (message_content m) as [blocks|]; [|done].
  apply fold_left_block_texts.
Qed.

Lemma message_texts_cons (m : Message) (messages : list Message) :
  message_texts (m :: messages) = message_texts [m] ++ message_texts messages.
Proof. unfold message_texts. cbn. by rewrite app_nil_r. Qed.

(** X13. The text gathered from a stream is the concatenation, in order,
    of the [text] of every block that has one; messages without [content]
    and blocks without [text] add nothing, and the text of two streams
    one after the other is the text of the first followed by the text of
    the second. *)
Theorem response_text_join (messages more : list Message) :
  response_text messages = join (message_texts messages)
  /\ response_text (messages ++ more) = response_text messages +:+ response_text more.
Proof.
  assert (forall ms, response_text ms = join (message_texts ms)) as Hjoin.
  { intros ms. unfold response_text.
    rewrite ContextBuffer.fold_left_append.
    change ("" +:+ join (message_text <$> ms)) with (join (message_text <$> ms)).
    induction ms as [|m ms IH]; [reflexivity|].
    rewrite message_texts_cons, join_app, <- IH, <- message_text_join.
    reflexivity. }
  split; [apply Hjoin|].
  rewrite !Hjoin. unfold message_texts. by rewrite bind_app, join_app.
Qed.

End Response.

(** ** The registry *)

Module RegistryFacts.
Import Registry.

Lemma agentic_names :
  names_of ClaudeCodeTranslator = dom ModelChoice.model_mapping.
Proof. compute_done. Qed.

Lemma entries_registered :
  Forall (fun kv => MODEL_DICT !! kv.1 = Some kv.2) MODEL_DICT_entries.
Proof. compute_done. Qed.

(** X15. No name is written twice in [MODEL_DICT], so that every entry of
    the literal is in the registry; and the names it sends to
    [ClaudeCodeTranslator] are exactly the names listed in the table of
    [set_claude_model], each of which therefore has an SDK model. *)
Theorem registry_agentic_names :
  NoDup MODEL_DICT_entries.*1
  /\ (forall name cls, (name, cls) ∈ MODEL_DICT_entries -> MODEL_DICT !! name = Some cls)
  /\ (forall name,
        MODEL_DICT !! name = Some ClaudeCodeTranslator <->
        is_Some (ModelChoice.model_mapping !! name)).
Proof.
  split; [|split].
  - compute_done.
  - intros name cls Hin.
    apply (proj1 (Forall_forall _ _) entries_registered (name, cls) Hin).
  - intros name. rewrite <- elem_of_dom, <- agentic_names. unfold names_of.
    rewrite elem_of_dom. unfold is_Some. setoid_rewrite map_lookup_filter_Some.
    split.
    + intros Hn. exists ClaudeCodeTranslator. split; [exact Hn|reflexivity].
    + intros (cls & Hn & Hcls). cbn in Hcls. subst cls. exact Hn.
Qed.

Lemma registry_agentic_names_witness :
  MODEL_DICT !! "deepseek-reasoner" = Some DeepSeekTranslator
  /\ is_Some (ModelChoice.model_mapping !! "glm").
Proof.
  destruct registry_agentic_names as (_ & Hentries & Hnames).
  split.
  - apply Hentries. compute_done.
  - apply Hnames. reflexivity.
Defined.

End RegistryFacts.
